(** * Video catalogue web application ([app.py])

    A shallow embedding of the request handlers of [app.py] — upload,
    delete, toggle-featured and the three listing views — together with
    the file-name validation and storage-name assignment they rely on,
    and the properties of the video record life cycle proved about them.

    Conventions of the embedding:
    - a Python [str] is a list of code points below 256 ([list ascii]);
    - the [videos] table is the list of its rows in rowid order;
    - the storage root is a finite map from paths to file contents;
    - a handler is a computation in a state-and-exception monad over the
      [World] (database, files, session, flashed messages, call trace);
    - [secure_filename] (werkzeug) and the row order chosen by SQLite for
      [ORDER BY upload_date DESC] are parameters, constrained only by
      their documented contracts. *)

From Stdlib Require Import ZArith Ascii String List.
From stdpp Require Import base decidable option list sorting gmap strings.

Open Scope Z_scope.
Open Scope list_scope.

(** ** Python strings *)

Abbreviation str := (list ascii).

Notation "« s »" := (list_ascii_of_string s%string)
  (at level 0, s at level 0, format "« s »").

Module Str.

(** [c.lower()] for a code point below 256: the ASCII capitals and the
    Latin-1 capitals U+00C0..U+00DE (except the multiplication sign
    U+00D7) move 32 places up, every other code point is kept. *)
Definition lower_char (c : ascii) : ascii :=
  let n := nat_of_ascii c in
  if (65 <=? n)%nat && (n <=? 90)%nat then ascii_of_nat (n + 32)
  else if (192 <=? n)%nat && (n <=? 222)%nat && negb (n =? 215)%nat
       then ascii_of_nat (n + 32)
  else c.

(** [s.lower()] *)
Definition lower (s : str) : str := map lower_char s.

(** [sep in s] for a one-character [sep] *)
Definition contains (sep : ascii) (s : str) : bool := bool_decide (sep ∈ s).

(** The last occurrence of [sep] in [s], as the pair of what stands
    before it and what stands after it. *)
Fixpoint rsplit_last (sep : ascii) (s : str) : option (str * str) :=
  match s with
  | [] => None
  | c :: s' =>
      match rsplit_last sep s' with
      | Some (h, t) => Some (c :: h, t)
      | None => if decide (c = sep) then Some ([], s') else None
      end
  end.

(** [s.rsplit(sep, maxsplit)] for a one-character [sep]: at most
    [maxsplit] splits, made from the right. *)
Fixpoint rsplit (sep : ascii) (maxsplit : nat) (s : str) : list str :=
  match maxsplit with
  | O => [s]
  | S n =>
      match rsplit_last sep s with
      | None => [s]
      | Some (h, t) => rsplit sep n h ++ [t]
      end
  end.

(** [s.startswith(c)] for a one-character [c] *)
Definition startswith (c : ascii) (s : str) : bool :=
  match s with
  | c' :: _ => bool_decide (c' = c)
  | [] => false
  end.

(** [s.endswith(c)] for a one-character [c] *)
Definition endswith (c : ascii) (s : str) : bool :=
  match last s with
  | Some c' => bool_decide (c' = c)
  | None => false
  end.

End Str.

(** ** Configuration *)

Definition UPLOAD_FOLDER : str := «"static/uploads"».

Definition ALLOWED_EXTENSIONS : gset str :=
  {[ «"mp4"»; «"avi"»; «"mov"»; «"wmv"»; «"flv"»; «"webm"» ]}.

(** ** File validation *)

(** [allowed_file]: the conjunction short-circuits, so the index [[1]] is
    evaluated only when [filename] contains a dot; the [None] branch
    stands for the [IndexError] that would be raised otherwise
    (see [rsplit_index_1], which shows it is never reached). *)
Definition allowed_file (filename : str) : bool :=
  Str.contains "." filename &&
  match Str.rsplit "." 1 filename !! 1%nat with
  | Some ext => bool_decide (Str.lower ext ∈ ALLOWED_EXTENSIONS)
  | None => false
  end.

(** ** Clock and timestamp formatting *)

(** A naive local date and time truncated to whole seconds: the fields of
    [datetime.now()] that [strftime] reads below. *)
Record datetime := mkDatetime {
  year : Z; month : Z; day : Z;
  hour : Z; minute : Z; second : Z
}.

Definition digit (d : Z) : ascii := ascii_of_nat (48 + Z.to_nat d).

(** The last [width] decimal digits of [n], most significant first. *)
Fixpoint zero_padded (width : nat) (n : Z) : str :=
  match width with
  | O => []
  | S w => zero_padded w (n / 10) ++ [digit (n mod 10)]
  end.

(** One [strftime] directive; a directive the handlers never use is
    copied through. *)
Definition directive (dt : datetime) (d : ascii) : str :=
  if decide (d = "Y"%char) then zero_padded 4 (year dt)
  else if decide (d = "m"%char) then zero_padded 2 (month dt)
  else if decide (d = "d"%char) then zero_padded 2 (day dt)
  else if decide (d = "H"%char) then zero_padded 2 (hour dt)
  else if decide (d = "M"%char) then zero_padded 2 (minute dt)
  else if decide (d = "S"%char) then zero_padded 2 (second dt)
  else ["%"%char; d].

(** [dt.strftime(format)] *)
Fixpoint strftime (dt : datetime) (format : str) : str :=
  match format with
  | [] => []
  | c :: rest =>
      if decide (c = "%"%char) then
        match rest with
        | d :: rest' => directive dt d ++ strftime dt rest'
        | [] => [c]
        end
      else c :: strftime dt rest
  end.


(** ** Paths *)

(** [os.path.join(a, b)] on POSIX, for two components. *)
Definition os_path_join (a b : str) : str :=
  if Str.startswith "/" b then b
  else if bool_decide (a = []) || Str.endswith "/" a then a ++ b
  else a ++ "/"%char :: b.

(** The components of a path, split at every slash. *)
Fixpoint components_from (cur : str) (path : str) : list str :=
  match path with
  | [] => [cur]
  | c :: rest =>
      if decide (c = "/"%char) then cur :: components_from [] rest
      else components_from (cur ++ [c]) rest
  end.

Definition components (path : str) : list str := components_from [] path.

(** Lexical resolution of a relative path: empty and [.] components are
    skipped, [..] steps out of the directory reached so far ([None] when
    it steps above the starting directory). *)
Fixpoint resolve_from (dir : list str) (cs : list str) : option (list str) :=
  match cs with
  | [] => Some dir
  | c :: cs' =>
      if decide (c = []) then resolve_from dir cs'
      else if decide (c = «"."») then resolve_from dir cs'
      else if decide (c = «".."») then
        match dir with
        | [] => None
        | _ => resolve_from (removelast dir) cs'
        end
      else resolve_from (dir ++ [c]) cs'
  end.

Definition resolve (path : str) : option (list str) :=
  resolve_from [] (components path).

(** ** Data model *)

(** A row of the table [videos].  [upload_date] is the instant denoted by
    the [CURRENT_TIMESTAMP] text of the row, in whole seconds: texts of
    the form [YYYY-MM-DD HH:MM:SS] compare as the instants they denote.
    [featured] holds what the handlers write, a Python [bool]. *)
Record Video := mkVideo {
  id : Z;
  title : str;
  description : str;
  filename : str;
  upload_date : Z;
  featured : bool
}.

Global Instance Video_eq_dec : EqDecision Video.
Proof. solve_decision. Defined.

(** The uploaded file part ([request.files['video']]). *)
Record FileStorage := mkFileStorage {
  file_filename : str;
  file_stream : list Byte.byte
}.

(** The parts of an upload request the handler reads. *)
Record Request := mkRequest {
  files_video : option FileStorage;   (* request.files.get('video') *)
  form_title : option str;            (* request.form.get('title') *)
  form_description : option str;      (* request.form.get('description') *)
  form_featured : bool                (* 'featured' in request.form *)
}.

(** What the surroundings decide during one request: the two clocks and
    whether the storage root accepts the write or the removal asked of
    it. *)
Record Env := mkEnv {
  now : datetime;            (* datetime.now() *)
  CURRENT_TIMESTAMP : Z;     (* the database clock *)
  save_fails : bool;         (* file.save raises *)
  remove_fails : bool        (* os.remove raises *)
}.

Inductive Endpoint := home_page | admin_login | admin_dashboard_page.

Inductive Template :=
| home_html (featured_videos recent_videos : list Video)
| highlights_html (featured_videos other_videos : list Video)
| admin_dashboard_html (videos : list Video).

Inductive Exception :=
| BadRequestKeyError (key : str)
| OSError (path : str).

Inductive Response :=
| redirect (target : Endpoint)
| render_template (page : Template)
| bad_request                       (* 400 *)
| internal_server_error (e : Exception).   (* 500 *)

(** Calls made to the database and to the storage root, in the order in
    which they are made. *)
Inductive Event :=
| DbConnect
| DbSelectById (video_id : Z)
| DbSelectList (featured_is : option bool) (limit : option nat)
| DbInsert (title description filename : str) (featured : bool)
| DbDelete (video_id : Z)
| DbUpdateFeatured (new_featured : bool) (video_id : Z)
| DbCommit
| DbClose
| FileSave (path : str)
| OsPathExists (path : str)
| OsRemove (path : str).

Global Instance Event_eq_dec : EqDecision Event.
Proof. solve_decision. Defined.

Record World := mkWorld {
  videos : list Video;                    (* table videos, in rowid order *)
  sqlite_sequence : Z;                    (* AUTOINCREMENT high-water mark *)
  storage : gmap str (list Byte.byte);    (* files by path *)
  session_admin_logged_in : option bool;  (* session.get('admin_logged_in') *)
  flashes : list (str * str);             (* (message, category) *)
  trace : list Event
}.

(** ** Handler computations *)

Definition M (A : Type) : Type := World -> (Exception + A) * World.

Global Instance M_ret : MRet M := fun A a w => (inr a, w).

Global Instance M_bind : MBind M := fun A B f m w =>
  match m w with
  | (inl e, w') => (inl e, w')
  | (inr a, w') => f a w'
  end.

Definition raise {A} (e : Exception) : M A := fun w => (inl e, w).

Definition get_world : M World := fun w => (inr w, w).

Definition put_world (w : World) : M unit := fun _ => (inr tt, w).

Definition log (ev : Event) : M unit := fun w =>
  (inr tt, mkWorld (videos w) (sqlite_sequence w) (storage w)
                   (session_admin_logged_in w) (flashes w) (trace w ++ [ev])).

Definition set_videos (vs : list Video) : M unit := fun w =>
  (inr tt, mkWorld vs (sqlite_sequence w) (storage w)
                   (session_admin_logged_in w) (flashes w) (trace w)).

Definition set_sqlite_sequence (n : Z) : M unit := fun w =>
  (inr tt, mkWorld (videos w) n (storage w)
                   (session_admin_logged_in w) (flashes w) (trace w)).

Definition set_storage (fs : gmap str (list Byte.byte)) : M unit := fun w =>
  (inr tt, mkWorld (videos w) (sqlite_sequence w) fs
                   (session_admin_logged_in w) (flashes w) (trace w)).

(** Python truthiness of [session.get('admin_logged_in')]. *)
Definition truthy (v : option bool) : bool :=
  match v with
  | Some b => b
  | None => false
  end.

Definition session_get_admin_logged_in : M (option bool) := fun w =>
  (inr (session_admin_logged_in w), w).

(** [flash(message, category)] *)
Definition flash (message category : str) : M unit := fun w =>
  (inr tt, mkWorld (videos w) (sqlite_sequence w) (storage w)
                   (session_admin_logged_in w)
                   (flashes w ++ [(message, category)]) (trace w)).

(** [request.form['title']]: a missing key raises. *)
Definition form_getitem_title (request : Request) : M str :=
  match form_title request with
  | Some t => mret t
  | None => raise (BadRequestKeyError «"title"»)
  end.

(** *** Storage root *)

(** [file.save(path)]: the write either raises, leaving the storage root
    as it was, or puts the payload at [path], replacing what was there. *)
Definition file_save (env : Env) (file : FileStorage) (path : str) : M unit :=
  log (FileSave path) ;;
  if save_fails env then raise (OSError path)
  else w ← get_world; set_storage (<[path := file_stream file]> (storage w)).

(** [os.path.exists(path)] *)
Definition os_path_exists (path : str) : M bool :=
  log (OsPathExists path) ;;
  w ← get_world; mret (bool_decide (is_Some (storage w !! path))).

(** [os.remove(path)]: raises when the removal is refused or when there
    is no such file. *)
Definition os_remove (env : Env) (path : str) : M unit :=
  log (OsRemove path) ;;
  w ← get_world;
  if remove_fails env || negb (bool_decide (is_Some (storage w !! path)))
  then raise (OSError path)
  else set_storage (delete path (storage w)).

(** *** Table [videos] *)

Definition get_db_connection : M unit := log DbConnect.
Definition conn_commit : M unit := log DbCommit.
Definition conn_close : M unit := log DbClose.

(** [SELECT * FROM videos WHERE id = ?], [fetchone()] *)
Definition select_by_id (video_id : Z) (vs : list Video) : option Video :=
  find (fun v => bool_decide (id v = video_id)) vs.

Definition conn_select_by_id (video_id : Z) : M (option Video) :=
  log (DbSelectById video_id) ;;
  w ← get_world; mret (select_by_id video_id (videos w)).

(** The largest rowid of the table (0 when it is empty). *)
Definition max_rowid (vs : list Video) : Z := foldr Z.max 0 (map id vs).

(** [INSERT INTO videos (title, description, filename, featured)]: the
    [AUTOINCREMENT] key is one more than the largest rowid ever used,
    [upload_date] takes its default. *)
Definition conn_insert (env : Env) (title description filename : str)
    (featured : bool) : M unit :=
  log (DbInsert title description filename featured) ;;
  w ← get_world;
  let rowid := Z.max (sqlite_sequence w) (max_rowid (videos w)) + 1 in
  set_videos (videos w ++ [mkVideo rowid title description filename
                                   (CURRENT_TIMESTAMP env) featured]) ;;
  set_sqlite_sequence rowid.

(** [DELETE FROM videos WHERE id = ?] *)
Definition conn_delete (video_id : Z) : M unit :=
  log (DbDelete video_id) ;;
  w ← get_world;
  set_videos (filter (fun v => id v ≠ video_id) (videos w)).

(** [UPDATE videos SET featured = ? WHERE id = ?] *)
Definition set_featured (new_featured : bool) (v : Video) : Video :=
  mkVideo (id v) (title v) (description v) (filename v) (upload_date v)
          new_featured.

Definition conn_update_featured (new_featured : bool) (video_id : Z) : M unit :=
  log (DbUpdateFeatured new_featured video_id) ;;
  w ← get_world;
  set_videos (map (fun v => if decide (id v = video_id)
                            then set_featured new_featured v else v)
                  (videos w)).

(** ** Collaborators *)

(** [werkzeug.utils.secure_filename] *)
Class Werkzeug := { secure_filename : str -> str }.

(** The order in which SQLite returns the rows of a scan for
    [ORDER BY upload_date DESC]. *)
Class Sqlite := { order_by_upload_date_desc : list Video -> list Video }.

(** The relation the rows of an [ORDER BY upload_date DESC] result stand
    in: a row is never followed by a more recent one. *)
Definition not_older (a b : Video) : Prop := upload_date b <= upload_date a.

Global Instance not_older_dec : RelDecision not_older.
Proof. intros a b. unfold not_older. apply _. Defined.

(** What SQL promises of the result of [ORDER BY upload_date DESC]: the
    rows of the scan, each once, the most recent first.  Nothing is
    promised about rows of equal [upload_date]. *)
Class SqliteOrderBy `{Sqlite} : Prop := {
  order_by_permutation vs : order_by_upload_date_desc vs ≡ₚ vs;
  order_by_sorted vs : StronglySorted not_older (order_by_upload_date_desc vs)
}.

(** The characters [secure_filename] lets through: [[A-Za-z0-9_.-]]. *)
Definition filename_char (c : ascii) : bool :=
  let n := nat_of_ascii c in
  ((65 <=? n) && (n <=? 90) || (97 <=? n) && (n <=? 122) ||
   (48 <=? n) && (n <=? 57) || (n =? 95) || (n =? 46) || (n =? 45))%nat.

(** What werkzeug promises of [secure_filename]: an ASCII name made of
    the characters above only, with no dot in front. *)
Class WerkzeugSecure `{Werkzeug} : Prop := {
  secure_filename_chars name : Forall (fun c => filename_char c = true)
                                      (secure_filename name);
  secure_filename_no_leading_dot name :
    Str.startswith "." (secure_filename name) = false
}.

(** ** Listing queries *)

Definition where_featured (featured_is : option bool) (vs : list Video)
    : list Video :=
  match featured_is with
  | None => vs
  | Some b => filter (fun v => featured v = b) vs
  end.

Definition limit_rows (limit : option nat) (vs : list Video) : list Video :=
  match limit with
  | None => vs
  | Some n => take n vs
  end.

(** [dict(video)] with [upload_date] parsed: the timestamp text of a row
    always has the format [strptime] is given, and the parsed value
    denotes the same instant. *)
Definition video_dict (video : Video) : Video := video.

Definition format_videos (videos : list Video) : list Video :=
  foldl (fun formatted_videos video => formatted_videos ++ [video_dict video])
        [] videos.

Section Handlers.
Context `{Werkzeug} `{Sqlite}.

(** [SELECT * FROM videos [WHERE featured = b] ORDER BY upload_date DESC
    [LIMIT n]], [fetchall()] *)
Definition select_videos (featured_is : option bool) (limit : option nat)
    (vs : list Video) : list Video :=
  limit_rows limit (order_by_upload_date_desc (where_featured featured_is vs)).

Definition conn_select_list (featured_is : option bool) (limit : option nat)
    : M (list Video) :=
  log (DbSelectList featured_is limit) ;;
  w ← get_world; mret (select_videos featured_is limit (videos w)).

(** The storage name of an upload (lines 197-199 of [upload_video]):
    the sanitised name behind a timestamp. *)
Definition assign_storage_name (env : Env) (original : str) : str :=
  let filename := secure_filename original in
  strftime (now env) «"%Y%m%d_%H%M%S"» ++ «"_"» ++ filename.

Definition home : M Response :=
  get_db_connection ;;
  featured_videos ← conn_select_list (Some true) (Some 3%nat);
  recent_videos ← conn_select_list None (Some 6%nat);
  conn_close ;;
  let featured_videos := format_videos featured_videos in
  let recent_videos := format_videos recent_videos in
  mret (render_template (home_html featured_videos recent_videos)).

Definition highlights : M Response :=
  get_db_connection ;;
  featured_videos ← conn_select_list (Some true) None;
  other_videos ← conn_select_list (Some false) None;
  conn_close ;;
  let featured_videos := format_videos featured_videos in
  let other_videos := format_videos other_videos in
  mret (render_template (highlights_html featured_videos other_videos)).

Definition admin_dashboard : M Response :=
  logged_in ← session_get_admin_logged_in;
  if negb (truthy logged_in) then mret (redirect admin_login)
  else
    get_db_connection ;;
    videos ← conn_select_list None None;
    conn_close ;;
    let videos := format_videos videos in
    mret (render_template (admin_dashboard_html videos)).

Definition upload_video (env : Env) (request : Request) : M Response :=
  logged_in ← session_get_admin_logged_in;
  if negb (truthy logged_in) then mret (redirect admin_login)
  else
    match files_video request with
    | None =>
        flash «"No file selected!"» «"error"» ;;
        mret (redirect admin_dashboard_page)
    | Some file =>
        title ← form_getitem_title request;
        let description := default [] (form_description request) in
        let featured := form_featured request in
        if decide (file_filename file = []) then
          flash «"No file selected!"» «"error"» ;;
          mret (redirect admin_dashboard_page)
        else
          (if bool_decide (file_filename file ≠ [])
              && allowed_file (file_filename file)
           then
             let filename := assign_storage_name env (file_filename file) in
             file_save env file (os_path_join UPLOAD_FOLDER filename) ;;
             get_db_connection ;;
             conn_insert env title description filename featured ;;
             conn_commit ;;
             conn_close ;;
             flash «"Video uploaded successfully!"» «"success"»
           else
             flash «"Invalid file type! Please upload a video file."»
                   «"error"») ;;
          mret (redirect admin_dashboard_page)
    end.

Definition delete_video (env : Env) (video_id : Z) : M Response :=
  logged_in ← session_get_admin_logged_in;
  if negb (truthy logged_in) then mret (redirect admin_login)
  else
    get_db_connection ;;
    video ← conn_select_by_id video_id;
    match video with
    | Some video =>
        let file_path := os_path_join UPLOAD_FOLDER (filename video) in
        file_exists ← os_path_exists file_path;
        (if (file_exists : bool) then os_remove env file_path else (mret tt : M unit)) ;;
        conn_delete video_id ;;
        conn_commit ;;
        flash «"Video deleted successfully!"» «"success"»
    | None => (mret tt : M unit)
    end ;;
    conn_close ;;
    mret (redirect admin_dashboard_page).

Definition toggle_featured (video_id : Z) : M Response :=
  logged_in ← session_get_admin_logged_in;
  if negb (truthy logged_in) then mret (redirect admin_login)
  else
    get_db_connection ;;
    video ← conn_select_by_id video_id;
    match video with
    | Some video =>
        let new_featured := negb (featured video) in
        conn_update_featured new_featured video_id ;;
        conn_commit ;;
        flash «"Video featured status updated!"» «"success"»
    | None => (mret tt : M unit)
    end ;;
    conn_close ;;
    mret (redirect admin_dashboard_page).

End Handlers.

(** A request as the framework serves it: an exception that escapes the
    handler becomes the error response. *)
Definition handle_request (handler : M Response) (w : World)
    : Response * World :=
  match handler w with
  | (inr response, w') => (response, w')
  | (inl (BadRequestKeyError _), w') => (bad_request, w')
  | (inl e, w') => (internal_server_error e, w')
  end.

(** ** Reference collaborators *)

(** SQLite as a scan of the table followed by a merge sort on
    [upload_date]: one of the orders [ORDER BY upload_date DESC] admits. *)
Definition sqlite_scan_and_sort : Sqlite :=
  {| order_by_upload_date_desc := merge_sort not_older |}.

(** SQLite as a scan from the last row back to the first, followed by
    the same sort: another order the query admits. *)
Definition sqlite_reverse_scan_and_sort : Sqlite :=
  {| order_by_upload_date_desc vs := merge_sort not_older (reverse vs) |}.

Module WerkzeugUtils.

(** The code points [str.split()] treats as white space, among those
    below 128. *)
Definition is_space (c : ascii) : bool :=
  let n := nat_of_ascii c in
  ((9 <=? n) && (n <=? 13) || (28 <=? n) && (n <=? 32))%nat.

(** [s.split()] *)
Fixpoint split_from (cur : option str) (s : str) : list str :=
  match s with
  | [] => match cur with Some w => [w] | None => [] end
  | c :: rest =>
      if is_space c then
        match cur with
        | Some w => w :: split_from None rest
        | None => split_from None rest
        end
      else split_from (Some (default [] cur ++ [c])) rest
  end.

Definition split (s : str) : list str := split_from None s.

(** [sep.join(parts)] *)
Fixpoint join (sep : str) (parts : list str) : str :=
  match parts with
  | [] => []
  | [p] => p
  | p :: ps => p ++ sep ++ join sep ps
  end.

(** [s.replace(old, new)] for one-character [old] and [new] *)
Definition replace (old new : ascii) (s : str) : str :=
  map (fun c => if decide (c = old) then new else c) s.

(** [s.lstrip(chars)], [s.rstrip(chars)], [s.strip(chars)] *)
Fixpoint lstrip (chars : str) (s : str) : str :=
  match s with
  | c :: rest => if bool_decide (c ∈ chars) then lstrip chars rest else s
  | [] => []
  end.

Definition rstrip (chars : str) (s : str) : str :=
  reverse (lstrip chars (reverse s)).

Definition strip (chars : str) (s : str) : str :=
  rstrip chars (lstrip chars s).

(** [secure_filename] on POSIX.  The first step stands for the NFKD
    normalisation followed by [encode('ascii', 'ignore')]: it is exact
    on ASCII names, where both leave the name as it is; a code point
    from 128 up is dropped here, without the ASCII letters its
    decomposition may carry. *)
Definition secure_filename (filename : str) : str :=
  let filename := filter (fun c => (nat_of_ascii c < 128)%nat) filename in
  let filename := replace "/" " " filename in
  let filename :=
    filter (fun c => filename_char c = true) (join «"_"» (split filename)) in
  strip «"._"» filename.

End WerkzeugUtils.

Definition werkzeug_posix : Werkzeug :=
  {| secure_filename := WerkzeugUtils.secure_filename |}.

(** ** Vocabulary of the properties *)

Definition is_digit (c : ascii) : Prop :=
  (48 <= nat_of_ascii c <= 57)%nat.

(** The token [%Y%m%d_%H%M%S] of a clock reading. *)
Definition timestamp_token (dt : datetime) : str :=
  zero_padded 4 (year dt) ++ zero_padded 2 (month dt) ++
  zero_padded 2 (day dt) ++ «"_"» ++ zero_padded 2 (hour dt) ++
  zero_padded 2 (minute dt) ++ zero_padded 2 (second dt).


(** The response to a request and the world it leaves behind. *)
Definition response_to (handler : M Response) (w : World) : Response :=
  fst (handle_request handler w).

Definition world_after (handler : M Response) (w : World) : World :=
  snd (handle_request handler w).

(** The calls made between two states of the world. *)
Definition calls_during (w w' : World) : list Event :=
  drop (length (trace w)) (trace w').

(** The path under which the file of a row is kept. *)
Definition video_path (v : Video) : str :=
  os_path_join UPLOAD_FOLDER (filename v).

(** A row is never followed by a more recent one. *)
Definition most_recent_first (l : list Video) : Prop :=
  forall (i j : nat) (a b : Video),
    (i < j)%nat -> l !! i = Some a -> l !! j = Some b ->
    upload_date b <= upload_date a.

(** Rows of equal [upload_date] stand in descending order of [id]. *)
Definition ties_by_descending_id (l : list Video) : Prop :=
  forall (i j : nat) (a b : Video),
    (i < j)%nat -> l !! i = Some a -> l !! j = Some b ->
    upload_date a = upload_date b -> id b < id a.

(** The listings a response carries to its template. *)
Definition listings (r : Response) : list (list Video) :=
  match r with
  | render_template (home_html featured_videos recent_videos) =>
      [featured_videos; recent_videos]
  | render_template (highlights_html featured_videos other_videos) =>
      [featured_videos; other_videos]
  | render_template (admin_dashboard_html videos) => [videos]
  | _ => []
  end.

(** The checks [upload_video] makes before it stores anything: the
    session gate, a file part with a name, an allowed extension; and the
    write itself going through. *)
Definition upload_accepted (env : Env) (request : Request) (w : World)
    : Prop :=
  truthy (session_admin_logged_in w) = true /\
  exists file, files_video request = Some file /\
    file_filename file <> [] /\
    allowed_file (file_filename file) = true /\
    save_fails env = false.

Definition is_DbInsert (ev : Event) : Prop :=
  match ev with
  | DbInsert _ _ _ _ => True
  | _ => False
  end.

(** ** Sample data *)

Definition sample_env : Env :=
  mkEnv (mkDatetime 2024 3 7 9 5 1) 1709802301 false false.

(** One second later. *)
Definition sample_env_later : Env :=
  mkEnv (mkDatetime 2024 3 7 9 5 2) 1709802302 false false.

(** The storage root refuses the removal. *)
Definition sample_env_remove_fails : Env :=
  mkEnv (mkDatetime 2024 3 7 9 5 1) 1709802301 false true.

Definition video_a : Video :=
  mkVideo 1 «"Intro"» [] «"a.mp4"» 1709800000 true.

(** Inserted after [video_a], within the same second. *)
Definition video_b : Video :=
  mkVideo 2 «"Outro"» [] «"b.mp4"» 1709800000 false.

(** The two rows with their files, seen from an administrator's session
    and from a session that never logged in. *)
Definition sample_world : World :=
  mkWorld [video_a; video_b] 2
          (<[«"static/uploads/a.mp4"» := []]>
             (<[«"static/uploads/b.mp4"» := []]> ∅))
          (Some true) [] [].

Definition sample_world_anonymous : World :=
  mkWorld [video_a; video_b] 2
          (<[«"static/uploads/a.mp4"» := []]>
             (<[«"static/uploads/b.mp4"» := []]> ∅))
          None [] [].

(** A row inserted a minute after the other two. *)
Definition video_c : Video :=
  mkVideo 3 «"Extra"» [] «"c.mp4"» 1709800060 true.

(** A table in which no two rows share their [upload_date]. *)
Definition sample_world_distinct : World :=
  mkWorld [video_a; video_c] 3 ∅ (Some true) [] [].

(** An upload of [clip.mp4] with an empty title. *)
Definition sample_upload_untitled : Request :=
  mkRequest (Some (mkFileStorage «"clip.mp4"» [])) (Some []) None false.

(** ** Administrator session *)

(** A row of the table [admin_users]. *)
Record AdminUser := mkAdminUser {
  user_id : Z;
  username : str;
  password_hash : str
}.

(** [werkzeug.security]: [generate_password_hash] draws a fresh salt at
    every call, here its first argument. *)
Class WerkzeugSecurity := {
  generate_password_hash : str -> str -> str;
  check_password_hash : str -> str -> bool
}.

(** What werkzeug promises of the pair: a hash checks against the
    password it was generated from. *)
Class WerkzeugSecurityOk `{WerkzeugSecurity} : Prop := {
  check_generated salt password :
    check_password_hash (generate_password_hash salt password) password = true
}.

Inductive Method := GET | POST.

(** The parts of a request to [/admin/login] the handler reads. *)
Record LoginRequest := mkLoginRequest {
  method : Method;                  (* request.method *)
  form_username : option str;       (* request.form.get('username') *)
  form_password : option str        (* request.form.get('password') *)
}.

(** The pages rendered without data. *)
Inductive StaticPage := admin_login_html | social_work_html | about_html.

(** What the session handlers and the static pages answer. *)
Inductive Reply :=
| render_static (page : StaticPage)
| reply (response : Response).

(** [request.form[key]]: a missing key raises. *)
Definition form_getitem (key : str) (value : option str) : M str :=
  match value with
  | Some v => mret v
  | None => raise (BadRequestKeyError key)
  end.

(** [session['admin_logged_in'] = True] and
    [session.pop('admin_logged_in', None)] *)
Definition set_session_admin_logged_in (v : option bool) : M unit := fun w =>
  (inr tt, mkWorld (videos w) (sqlite_sequence w) (storage w) v
                   (flashes w) (trace w)).

(** [SELECT * FROM admin_users WHERE username = ?], [fetchone()].  The
    trace keeps the calls on the table [videos] and on the storage root;
    this query leaves no event in it. *)
Definition select_admin_user (name : str) (admin_users : list AdminUser)
    : option AdminUser :=
  find (fun u => bool_decide (username u = name)) admin_users.

Section SessionHandlers.
Context `{WerkzeugSecurity}.

(** [user and check_password_hash(user['password_hash'], password)] *)
Definition credentials_accepted (user : option AdminUser) (password : str)
    : bool :=
  match user with
  | Some u => check_password_hash (password_hash u) password
  | None => false
  end.

Definition admin_login_view (admin_users : list AdminUser)
    (request : LoginRequest) : M Reply :=
  match method request with
  | POST =>
      name ← form_getitem «"username"» (form_username request);
      password ← form_getitem «"password"» (form_password request);
      get_db_connection ;;
      let user := select_admin_user name admin_users in
      conn_close ;;
      if credentials_accepted user password then
        set_session_admin_logged_in (Some true) ;;
        flash «"Successfully logged in!"» «"success"» ;;
        mret (reply (redirect admin_dashboard_page))
      else
        flash «"Invalid credentials!"» «"error"» ;;
        mret (render_static admin_login_html)
  | GET => mret (render_static admin_login_html)
  end.

End SessionHandlers.

Definition admin_logout : M Reply :=
  set_session_admin_logged_in None ;;
  flash «"Successfully logged out!"» «"success"» ;;
  mret (reply (redirect home_page)).

Definition social_work : M Reply := mret (render_static social_work_html).

Definition about : M Reply := mret (render_static about_html).

(** A session request as the framework serves it. *)
Definition serve (handler : M Reply) (w : World) : Reply * World :=
  match handler w with
  | (inr r, w') => (r, w')
  | (inl (BadRequestKeyError _), w') => (reply bad_request, w')
  | (inl e, w') => (reply (internal_server_error e), w')
  end.

(** ** Database initialisation *)

(** The database file: a table is [None] until it is created. *)
Record Database := mkDatabase {
  videos_table : option (list Video);
  admin_users_table : option (list AdminUser);
  admin_users_sequence : Z             (* AUTOINCREMENT high-water mark *)
}.

(** [CREATE TABLE IF NOT EXISTS] *)
Definition create_table_if_not_exists {A} (table : option (list A))
    : option (list A) :=
  match table with
  | Some rows => Some rows
  | None => Some []
  end.

(** [INSERT OR IGNORE INTO admin_users (username, password_hash)]: the
    row is dropped when its [username] is taken ([UNIQUE]), and is given
    the next [AUTOINCREMENT] key otherwise. *)
Definition insert_or_ignore_admin_user (name hash : str) (db : Database)
    : Database :=
  let users := default [] (admin_users_table db) in
  match select_admin_user name users with
  | Some _ => db
  | None =>
      let rowid :=
        Z.max (admin_users_sequence db) (foldr Z.max 0 (map user_id users))
        + 1 in
      mkDatabase (videos_table db)
                 (Some (users ++ [mkAdminUser rowid name hash])) rowid
  end.

Section InitDb.
Context `{WerkzeugSecurity}.

(** [init_db()]; [salt] is the salt drawn by [generate_password_hash]. *)
Definition init_db (salt : str) (db : Database) : Database :=
  let db := mkDatabase (create_table_if_not_exists (videos_table db))
                       (admin_users_table db) (admin_users_sequence db) in
  let db := mkDatabase (videos_table db)
                       (create_table_if_not_exists (admin_users_table db))
                       (admin_users_sequence db) in
  let admin_hash := generate_password_hash salt «"admin123"» in
  insert_or_ignore_admin_user «"admin"» admin_hash db.

End InitDb.

(** A password hashing that keeps the contract, for the sample data: the
    salt, a dollar sign, the password. *)
Definition salted_plain : WerkzeugSecurity :=
  {| generate_password_hash salt password := salt ++ «"$"» ++ password;
     check_password_hash hash password :=
       bool_decide ((«"$"» ++ password) `suffix_of` hash) |}.

(** ** Vocabulary of the further properties *)

Definition reply_to (handler : M Reply) (w : World) : Reply :=
  fst (serve handler w).

Definition world_served (handler : M Reply) (w : World) : World :=
  snd (serve handler w).

(** The table and its key sequence agree: no key is used twice and none
    exceeds the high-water mark. *)
Definition keys_consistent (w : World) : Prop :=
  NoDup (map id (videos w)) /\
  Forall (fun v => id v <= sqlite_sequence w) (videos w).

(** Every row has its file under the storage root. *)
Definition files_present (w : World) : Prop :=
  forall v, v ∈ videos w -> is_Some (storage w !! video_path v).

(** No user name is used twice. *)
Definition usernames_unique (users : list AdminUser) : Prop :=
  NoDup (map username users).

(** A request that logs in. *)
Definition sample_login (name password : str) : LoginRequest :=
  mkLoginRequest POST (Some name) (Some password).

Definition empty_database : Database := mkDatabase None None 0.



(** The one account of the sample data, its hash made by
    [salted_plain]. *)
Definition sample_users : list AdminUser :=
  [mkAdminUser 1 «"admin"» «"salt$admin123"»].

Definition sample_upload_clip : Request :=
  mkRequest (Some (mkFileStorage «"clip.mp4"» [])) (Some «"Clip"») None true.


Definition sample_upload_no_title : Request :=
  mkRequest (Some (mkFileStorage «"clip.exe"» [])) None None false.


(** * Properties *)

(** ** Running a handler *)

Ltac run_M :=
  cbv beta iota delta
      [mbind mret M_bind M_ret raise get_world put_world log set_videos
       set_sqlite_sequence set_storage session_get_admin_logged_in flash
       form_getitem_title file_save os_path_exists os_remove
       get_db_connection conn_commit conn_close conn_select_by_id
       conn_insert conn_delete conn_update_featured conn_select_list
       handle_request response_to world_after];
  cbn [videos sqlite_sequence storage session_admin_logged_in flashes trace
       fst snd negb andb orb].

(** The calls of a run, read off the trace it extends. *)
Ltac run_calls :=
  unfold calls_during; cbn [trace];
  rewrite <- ?app_assoc; rewrite ?drop_app_length, ?drop_all;
  cbn [app].

(** The seven ways through [upload_video]: an empty file name; a write
    that fails; a stored upload; a refused extension; a missing title; a
    missing file part; a closed gate. *)
Ltac upload_cases env request w :=
  unfold upload_video; run_M;
  destruct (truthy (session_admin_logged_in w)) eqn:Hgate; run_M;
  [ destruct (files_video request) as [file|] eqn:Hfile; run_M;
    [ destruct (form_title request) as [title0|] eqn:Htitle; run_M;
      [ destruct (decide (file_filename file = [])) as [Hempty|Hname]; run_M;
        [ | rewrite (bool_decide_true _ Hname); run_M;
            destruct (allowed_file (file_filename file)) eqn:Hext; run_M;
            [ destruct (save_fails env) eqn:Hsave; run_M | ] ]
      | ]
    | ]
  | ].

(** ** File validation *)

Lemma rsplit_last_None sep s : Str.rsplit_last sep s = None <-> sep ∉ s.
Proof.
  induction s as [|c s IH]; simpl.
  - split; [intros _; apply not_elem_of_nil | done].
  - rewrite not_elem_of_cons.
    destruct (Str.rsplit_last sep s) as [[h t]|].
    + split; [done | intros [_ Hs]; by apply IH in Hs].
    + destruct (decide (c = sep)) as [->|Hne].
      * split; [done | by intros [? _]].
      * split; [intros _; split; [congruence | by apply IH] | done].
Qed.

Lemma rsplit_last_Some sep s h t :
  Str.rsplit_last sep s = Some (h, t) <-> s = h ++ sep :: t /\ (sep ∉ t).
Proof.
  split.
  - revert h t. induction s as [|c s IH]; intros h t; simpl; [done|].
    destruct (Str.rsplit_last sep s) as [[h' t']|] eqn:E.
    + intros [= <- <-]. destruct (IH h' t' eq_refl) as [-> Ht]. done.
    + destruct (decide (c = sep)) as [->|Hne]; [|done].
      intros [= <- <-]. split; [done | by apply rsplit_last_None].
  - intros [-> Ht]. induction h as [|c h IH]; simpl.
    + apply rsplit_last_None in Ht as ->. by rewrite decide_True.
    + by rewrite IH.
Qed.

(** The index read by [allowed_file] exists whenever the guard before it
    holds: no [IndexError] can be raised. *)
Lemma rsplit_index_1 s :
  "."%char ∈ s -> is_Some (Str.rsplit "." 1 s !! 1%nat).
Proof.
  intros Hin. simpl.
  destruct (Str.rsplit_last "." s) as [[h t]|] eqn:E.
  - by eexists.
  - apply rsplit_last_None in E. done.
Qed.

Lemma elem_of_ALLOWED_EXTENSIONS (ext : str) :
  ext ∈ ALLOWED_EXTENSIONS <->
  ext ∈ [«"mp4"»; «"avi"»; «"mov"»; «"wmv"»; «"flv"»; «"webm"»].
Proof.
  unfold ALLOWED_EXTENSIONS.
  rewrite !elem_of_union, !elem_of_singleton, !elem_of_cons, elem_of_nil.
  tauto.
Qed.

(** C3. [allowed_file] accepts a name exactly when the name contains a
    dot and what follows its last dot, lowercased, is one of mp4, avi,
    mov, wmv, flv, webm; a name without a dot, or with any other suffix
    after its last dot, is rejected. *)
Theorem allowed_file_iff (filename : str) :
  allowed_file filename = true <->
  exists stem ext : str,
    filename = stem ++ "."%char :: ext /\ ("."%char ∉ ext) /\
    Str.lower ext ∈ [«"mp4"»; «"avi"»; «"mov"»; «"wmv"»; «"flv"»; «"webm"»].
Proof.
  unfold allowed_file, Str.contains. simpl.
  rewrite andb_true_iff, bool_decide_eq_true.
  destruct (Str.rsplit_last "." filename) as [[h t]|] eqn:E.
  - apply rsplit_last_Some in E as [-> Ht]. simpl.
    rewrite bool_decide_eq_true, elem_of_ALLOWED_EXTENSIONS. split.
    + intros [_ Hext]. by exists h, t.
    + intros (stem & ext & Heq & Hdot & Hext).
      split; [rewrite elem_of_app, elem_of_cons; auto|].
      assert (Str.rsplit_last "." (h ++ "."%char :: t) = Some (stem, ext)) as E'
        by (by apply rsplit_last_Some).
      assert (Str.rsplit_last "." (h ++ "."%char :: t) = Some (h, t)) as E''
        by (by apply rsplit_last_Some).
      assert (ext = t) as <- by congruence. done.
  - apply rsplit_last_None in E. split.
    + by intros [? _].
    + intros (stem & ext & -> & _). exfalso. apply E.
      rewrite elem_of_app, elem_of_cons; auto.
Qed.

Example allowed_file_upper : allowed_file «"Clip.final.MoV"» = true.
Proof. by vm_compute. Qed.

Example allowed_file_double : allowed_file «"clip.mp4.exe"» = false.
Proof. by vm_compute. Qed.

(** ** Storage names *)

Lemma digit_is_digit d : 0 <= d < 10 -> is_digit (digit d).
Proof.
  intros Hd. unfold is_digit, digit.
  rewrite nat_ascii_embedding by lia. lia.
Qed.


Lemma zero_padded_length w n : length (zero_padded w n) = w.
Proof.
  revert n. induction w as [|w IH]; intros n; simpl; [done|].
  rewrite length_app, IH. simpl. lia.
Qed.

Lemma zero_padded_digits w n : Forall is_digit (zero_padded w n).
Proof.
  revert n. induction w as [|w IH]; intros n; simpl; [constructor|].
  apply Forall_app. split; [apply IH|].
  constructor; [|constructor].
  apply digit_is_digit. apply Z.mod_pos_bound. lia.
Qed.


Lemma strftime_token dt : strftime dt «"%Y%m%d_%H%M%S"» = timestamp_token dt.
Proof. reflexivity. Qed.

Lemma timestamp_token_length dt : length (timestamp_token dt) = 15%nat.
Proof.
  unfold timestamp_token. by rewrite !length_app, !zero_padded_length.
Qed.



Section StorageNames.
Context `{Werkzeug}.

Lemma assign_storage_name_eq env original :
  assign_storage_name env original =
  timestamp_token (now env) ++ «"_"» ++ secure_filename original.
Proof. unfold assign_storage_name. by rewrite strftime_token. Qed.


End StorageNames.

(** ** Paths under the storage root *)

Lemma filename_char_not_slash c : filename_char c = true -> c <> "/"%char.
Proof. intros Hc ->. by vm_compute in Hc. Qed.

Lemma is_digit_not_slash c : is_digit c -> c <> "/"%char.
Proof.
  intros Hc ->. unfold is_digit in Hc.
  change (nat_of_ascii "/") with 47%nat in Hc. lia.
Qed.

Lemma components_from_no_slash cur s :
  "/"%char ∉ s -> components_from cur s = [cur ++ s].
Proof.
  revert cur. induction s as [|c s IH]; intros cur Hs; simpl.
  - by rewrite app_nil_r.
  - apply not_elem_of_cons in Hs as [Hc Hs].
    rewrite decide_False by done. rewrite IH by done.
    by rewrite <- app_assoc.
Qed.

Lemma os_path_join_relative a b :
  a <> [] -> Str.endswith "/" a = false -> "/"%char ∉ b ->
  os_path_join a b = a ++ "/"%char :: b.
Proof.
  intros Ha Hend Hb. unfold os_path_join.
  assert (Str.startswith "/" b = false) as ->.
  { destruct b as [|c b]; [done|]. simpl.
    apply bool_decide_eq_false. intros ->. apply Hb. by left. }
  by rewrite bool_decide_false, Hend.
Qed.

Lemma resolve_UPLOAD_FOLDER :
  resolve UPLOAD_FOLDER = Some [«"static"»; «"uploads"»].
Proof. reflexivity. Qed.

(** A single plain component joined to the storage root resolves to a
    direct child of the storage root. *)
Lemma resolve_in_storage_root (name : str) :
  "/"%char ∉ name -> (2 < length name)%nat ->
  resolve (os_path_join UPLOAD_FOLDER name) =
  Some [«"static"»; «"uploads"»; name].
Proof.
  intros Hslash Hlen.
  rewrite os_path_join_relative by done.
  unfold resolve, components, UPLOAD_FOLDER.
  cbn [list_ascii_of_string app components_from].
  repeat (rewrite decide_False by done; cbn [app]).
  rewrite decide_True by done.
  repeat (rewrite decide_False by done; cbn [app]).
  rewrite decide_True by done.
  rewrite components_from_no_slash by done.
  cbn [app resolve_from].
  repeat (rewrite decide_False by done; cbn [app resolve_from]).
  rewrite !decide_False; [done|..];
    intros ->; simpl in Hlen; lia.
Qed.

Section StoragePaths.
Context `{Werkzeug} `{!WerkzeugSecure}.

Lemma secure_filename_no_slash original :
  "/"%char ∉ secure_filename original.
Proof.
  intros Hin. pose proof (secure_filename_chars original) as Hall.
  rewrite Forall_forall in Hall. apply Hall in Hin.
  by apply filename_char_not_slash in Hin.
Qed.

Lemma secure_filename_not_dots original :
  secure_filename original <> «"."» /\ secure_filename original <> «".."».
Proof.
  pose proof (secure_filename_no_leading_dot original) as Hdot.
  split; intros Heq; by rewrite Heq in Hdot.
Qed.

Lemma assign_storage_name_no_slash env original :
  "/"%char ∉ assign_storage_name env original.
Proof.
  assert (Forall (fun c => c <> "/"%char) (assign_storage_name env original))
    as Hall.
  { rewrite assign_storage_name_eq. unfold timestamp_token.
    assert (forall w n, Forall (fun c => c <> "/"%char) (zero_padded w n))
      as Hpad.
    { intros w n. eapply Forall_impl; [apply zero_padded_digits|].
      apply is_digit_not_slash. }
    rewrite !Forall_app. repeat split; try apply Hpad.
    - by repeat constructor.
    - by repeat constructor.
    - eapply Forall_impl; [apply secure_filename_chars|].
      apply filename_char_not_slash. }
  rewrite Forall_forall in Hall. intros Hin. by apply Hall in Hin.
Qed.

Lemma assign_storage_name_length env original :
  (15 < length (assign_storage_name env original))%nat.
Proof.
  rewrite assign_storage_name_eq, !length_app, timestamp_token_length.
  simpl. lia.
Qed.

(** C10. Whatever the original name of an upload — path separators and
    [..] segments included — its sanitised form is a single component
    other than [.] and [..]; the timestamp goes in front of that
    sanitised form; and the path the upload is written to resolves to a
    direct child of the storage root. *)
Theorem upload_path_inside_storage_root env original :
  let sanitized := secure_filename original in
  let name := assign_storage_name env original in
  (components sanitized = [sanitized] /\
   sanitized <> «"."» /\ sanitized <> «".."») /\
  name = strftime (now env) «"%Y%m%d_%H%M%S"» ++ «"_"» ++ sanitized /\
  components name = [name] /\
  resolve UPLOAD_FOLDER = Some [«"static"»; «"uploads"»] /\
  resolve (os_path_join UPLOAD_FOLDER name) =
    Some [«"static"»; «"uploads"»; name] /\
  forall request w path,
    FileSave path
      ∈ calls_during w (world_after (upload_video env request) w) ->
    exists file, files_video request = Some file /\
      path = os_path_join UPLOAD_FOLDER
               (assign_storage_name env (file_filename file)) /\
      resolve path =
        Some [«"static"»; «"uploads"»;
              assign_storage_name env (file_filename file)].
Proof.
  intros sanitized name.
  pose proof (secure_filename_not_dots original) as [Hdot Hdots].
  assert (forall o, resolve (os_path_join UPLOAD_FOLDER
                               (assign_storage_name env o)) =
                    Some [«"static"»; «"uploads"»; assign_storage_name env o])
    as Hresolve.
  { intros o. apply resolve_in_storage_root.
    - apply assign_storage_name_no_slash.
    - pose proof (assign_storage_name_length env o). lia. }
  repeat apply conj; try done.
  - unfold components. apply components_from_no_slash.
    apply secure_filename_no_slash.
  - unfold components. apply components_from_no_slash.
    apply assign_storage_name_no_slash.
  - apply Hresolve.
  - intros request w path.
    upload_cases env request w; run_calls; intros Hin.
    all: try (by apply elem_of_nil in Hin).
    + apply list_elem_of_singleton in Hin as [= ->]. by exists file.
    + apply elem_of_cons in Hin as [[= ->]|Hin]; [by exists file|].
      exfalso. repeat (apply elem_of_cons in Hin as [Hin|Hin]; [done|]).
      by apply elem_of_nil in Hin.
Qed.

End StoragePaths.

(** ** Request handlers *)

Section HandlerProperties.
Context `{Werkzeug} `{Sqlite}.

(** C4. In a session whose [admin_logged_in] flag is not set, the upload,
    delete and toggle-featured handlers answer with the redirect to the
    login page and leave the world as it was: no row, no file, no flashed
    message, and not one call to the database or the storage root. *)
Theorem unauthenticated_request_redirected env request video_id w :
  truthy (session_admin_logged_in w) = false ->
  handle_request (upload_video env request) w = (redirect admin_login, w) /\
  handle_request (delete_video env video_id) w = (redirect admin_login, w) /\
  handle_request (toggle_featured video_id) w = (redirect admin_login, w).
Proof.
  intros Hgate.
  unfold upload_video, delete_video, toggle_featured. run_M.
  by rewrite Hgate.
Qed.

(** C1 (amended). An upload whose title is the empty string is handled as
    any other: when the gate, the file part, the file name, the extension
    and the write all pass, the row is inserted with the empty title;
    otherwise no row is inserted and no insert is called.  The title
    itself is never checked. *)
Theorem upload_with_empty_title env request w :
  form_title request = Some [] ->
  let w' := world_after (upload_video env request) w in
  (upload_accepted env request w ->
   exists v, videos w' = videos w ++ [v] /\ title v = [] /\
     DbInsert [] (description v) (filename v) (featured v)
       ∈ calls_during w w') /\
  (~ upload_accepted env request w ->
   videos w' = videos w /\
   Forall (fun ev => ~ is_DbInsert ev) (calls_during w w')).
Proof.
  intros Htitle0 w'. subst w'. unfold upload_accepted.
  upload_cases env request w; run_calls.
  all: split; [intros (Hg & file' & Hf & Hn & He & Hs)
              | intros Hnot; split; [try done|] ].
  all: try (injection Hf as <-); try congruence.
  all: try (repeat constructor; simpl; tauto).
  - injection Htitle0 as ->. eexists. split; [done|]. split; [done|].
    cbn [description filename featured].
    apply list_elem_of_In. simpl. auto.
  - exfalso. apply Hnot. split; [done|]. by exists file.
  - exfalso. apply Hnot. split; [done|]. by exists file.
Qed.



(** *** Lookups in the table *)

Lemma select_by_id_Some x vs v :
  select_by_id x vs = Some v -> v ∈ vs /\ id v = x.
Proof.
  unfold select_by_id. induction vs as [|a vs IH]; simpl; [done|].
  destruct (bool_decide (id a = x)) eqn:E.
  - intros [= ->]. apply bool_decide_eq_true in E. split; [by left|done].
  - intros Hf. destruct (IH Hf). split; [by right|done].
Qed.

Lemma select_by_id_deleted x vs :
  select_by_id x (filter (fun v => id v <> x) vs) = None.
Proof.
  unfold select_by_id. induction vs as [|a vs IH]; [done|].
  rewrite filter_cons. destruct (decide (id a <> x)) as [Hne|Heq]; [|done].
  simpl. by rewrite bool_decide_false.
Qed.

Lemma select_by_id_delete_other x y vs :
  y <> x ->
  select_by_id y (filter (fun v => id v <> x) vs) = select_by_id y vs.
Proof.
  intros Hyx. unfold select_by_id. induction vs as [|a vs IH]; [done|].
  rewrite filter_cons. destruct (decide (id a <> x)) as [Hne|Heq]; simpl.
  - by rewrite IH.
  - apply dec_stable in Heq. rewrite bool_decide_false by congruence. done.
Qed.

Lemma select_by_id_updated x nf vs :
  select_by_id x (map (fun v => if decide (id v = x)
                                then set_featured nf v else v) vs) =
  set_featured nf <$> select_by_id x vs.
Proof.
  unfold select_by_id. induction vs as [|a vs IH]; [done|]. simpl.
  destruct (decide (id a = x)) as [Heq|Hne].
  - cbn [set_featured id]. by rewrite !bool_decide_true.
  - by rewrite !bool_decide_false.
Qed.

Lemma select_by_id_update_other x y nf vs :
  y <> x ->
  select_by_id y (map (fun v => if decide (id v = x)
                                then set_featured nf v else v) vs) =
  select_by_id y vs.
Proof.
  intros Hyx. unfold select_by_id. induction vs as [|a vs IH]; [done|]. simpl.
  destruct (decide (id a = x)) as [Heq|Hne].
  - cbn [set_featured id]. by rewrite !bool_decide_false by congruence.
  - by rewrite IH.
Qed.

(** A column without repeated values names one row. *)
Lemma column_unique {B} (f : Video -> B) vs a b :
  NoDup (map f vs) -> a ∈ vs -> b ∈ vs -> f a = f b -> a = b.
Proof.
  induction vs as [|v vs IH]; simpl; [by intros _ ?%elem_of_nil|].
  intros [Hv Hnd]%NoDup_cons Ha Hb Hf.
  assert (forall c, c ∈ vs -> f c ∈ map f vs) as Hin.
  { intros c Hc. apply list_elem_of_In, in_map, list_elem_of_In, Hc. }
  apply elem_of_cons in Ha as [->|Ha], Hb as [->|Hb]; [done|..].
  - exfalso. apply Hv. rewrite Hf. by apply Hin.
  - exfalso. apply Hv. rewrite <- Hf. by apply Hin.
  - by apply IH.
Qed.

(** C6 (amended). For the id of an existing row, [delete_video] looks
    for the backing file first and deletes the row afterwards: a missing
    file is not an error and does not hold the row back; a file that is
    there is removed before the row is deleted; when that removal raises,
    the request ends there and the row is kept.  For an id that names no
    row, the table, the storage root and the flashed messages stay as
    they were and the handler goes back to the dashboard. *)
Theorem delete_video_file_then_record env video_id w :
  truthy (session_admin_logged_in w) = true ->
  let response := response_to (delete_video env video_id) w in
  let w' := world_after (delete_video env video_id) w in
  let calls := calls_during w w' in
  match select_by_id video_id (videos w) with
  | Some video =>
      let path := video_path video in
      (storage w !! path = None ->
       response = redirect admin_dashboard_page /\
       videos w' = filter (fun v => id v <> video_id) (videos w) /\
       select_by_id video_id (videos w') = None /\
       storage w' = storage w /\
       calls = [DbConnect; DbSelectById video_id; OsPathExists path;
                DbDelete video_id; DbCommit; DbClose]) /\
      (is_Some (storage w !! path) -> remove_fails env = false ->
       response = redirect admin_dashboard_page /\
       videos w' = filter (fun v => id v <> video_id) (videos w) /\
       select_by_id video_id (videos w') = None /\
       storage w' = delete path (storage w) /\
       calls = [DbConnect; DbSelectById video_id; OsPathExists path;
                OsRemove path; DbDelete video_id; DbCommit; DbClose]) /\
      (is_Some (storage w !! path) -> remove_fails env = true ->
       response = internal_server_error (OSError path) /\
       videos w' = videos w /\ storage w' = storage w /\
       calls = [DbConnect; DbSelectById video_id; OsPathExists path;
                OsRemove path])
  | None =>
      response = redirect admin_dashboard_page /\
      videos w' = videos w /\ storage w' = storage w /\
      flashes w' = flashes w /\
      calls = [DbConnect; DbSelectById video_id; DbClose]
  end.
Proof.
  intros Hgate response w' calls. subst response w' calls.
  unfold delete_video. run_M. rewrite Hgate. run_M.
  destruct (select_by_id video_id (videos w)) as [video|] eqn:Hsel; run_M.
  - fold (video_path video).
    split; [intros Hnone|split; intros Hsome Hrm].
    + rewrite Hnone.
      rewrite (bool_decide_false (is_Some None)) by (by intros [? ?]).
      run_M. run_calls.
      repeat apply conj; try done; apply select_by_id_deleted.
    + rewrite bool_decide_true by done. run_M.
      rewrite Hrm, bool_decide_true by done. run_M. run_calls.
      repeat apply conj; try done; apply select_by_id_deleted.
    + rewrite bool_decide_true by done. run_M.
      rewrite Hrm. run_M. run_calls. done.
  - run_calls. done.
Qed.

(** C8. Toggling the id of an existing row negates the [featured] flag of
    that row and nothing else: its other fields, every other row, the
    order and number of the rows and the storage root are as before. *)
Theorem toggle_featured_flips_one video_id video w :
  truthy (session_admin_logged_in w) = true ->
  NoDup (map id (videos w)) ->
  select_by_id video_id (videos w) = Some video ->
  let w' := world_after (toggle_featured video_id) w in
  (exists video',
      select_by_id video_id (videos w') = Some video' /\
      featured video' = negb (featured video) /\
      id video' = id video /\ title video' = title video /\
      description video' = description video /\
      filename video' = filename video /\
      upload_date video' = upload_date video) /\
  (forall other, other <> video_id ->
      select_by_id other (videos w') = select_by_id other (videos w)) /\
  videos w' =
    map (fun v => if decide (v = video)
                  then set_featured (negb (featured v)) v else v) (videos w) /\
  (forall (i : nat) v, videos w !! i = Some v -> v <> video ->
      videos w' !! i = Some v) /\
  length (videos w') = length (videos w) /\
  storage w' = storage w.
Proof.
  intros Hgate Hkey Hsel w'. subst w'.
  unfold toggle_featured. run_M. rewrite Hgate. run_M.
  rewrite Hsel. run_M.
  destruct (select_by_id_Some _ _ _ Hsel) as [Hin Hid].
  assert (map (fun v => if decide (id v = video_id)
                        then set_featured (negb (featured video)) v else v)
              (videos w) =
          map (fun v => if decide (v = video)
                        then set_featured (negb (featured v)) v else v)
              (videos w)) as Hmap.
  { apply map_ext_in. intros v Hv%list_elem_of_In.
    destruct (decide (id v = video_id)) as [Hv_id|Hv_id].
    - assert (v = video) as -> by (apply (column_unique id (videos w));
        [done..|congruence]).
      by rewrite decide_True.
    - rewrite decide_False; [done|]. intros ->. done. }
  split; [|split; [|split; [|split; [|split]]]].
  - eexists. rewrite select_by_id_updated, Hsel. by cbn.
  - intros other Hother. by apply select_by_id_update_other.
  - done.
  - intros i v Hi Hv. rewrite Hmap.
    change (map ?f ?l) with (f <$> l). rewrite list_lookup_fmap, Hi.
    cbn. by rewrite decide_False.
  - apply length_map.
  - done.
Qed.


End HandlerProperties.

(** ** Listings *)

Lemma format_videos_eq vs : format_videos vs = vs.
Proof.
  unfold format_videos, video_dict.
  assert (forall acc, foldl (fun formatted_videos video =>
            formatted_videos ++ [video]) acc vs = acc ++ vs) as Hgen.
  { induction vs as [|v vs IH]; intros acc; simpl.
    - by rewrite app_nil_r.
    - rewrite IH. by rewrite <- app_assoc. }
  apply Hgen.
Qed.

Lemma StronglySorted_most_recent_first l :
  StronglySorted not_older l -> most_recent_first l.
Proof.
  induction 1 as [|a l Hs IH Hall]; intros i j x y Hij Hi Hj.
  - by rewrite lookup_nil in Hi.
  - destruct j as [|j]; [lia|]. simpl in Hj. destruct i as [|i].
    + injection Hi as <-. rewrite Forall_lookup in Hall. by eapply Hall.
    + simpl in Hi. apply (IH i j); [lia|done..].
Qed.

Lemma most_recent_first_take n l :
  most_recent_first l -> most_recent_first (take n l).
Proof.
  intros Hl i j a b Hij Hi Hj.
  apply lookup_take_Some in Hi as [Hi _], Hj as [Hj _]. by eapply Hl.
Qed.

Lemma where_featured_subset featured_is vs v :
  v ∈ where_featured featured_is vs -> v ∈ vs.
Proof.
  destruct featured_is as [b|]; simpl; [|done].
  by intros [_ ?]%list_elem_of_filter.
Qed.

Section ListingProperties.
Context {sqlite : Sqlite} {sqlite_order_by : SqliteOrderBy}.

Lemma select_videos_most_recent_first featured_is limit vs :
  most_recent_first (select_videos featured_is limit vs).
Proof.
  unfold select_videos.
  pose proof (StronglySorted_most_recent_first _
    (order_by_sorted (where_featured featured_is vs))) as Hsorted.
  destruct limit as [n|]; simpl; [by apply most_recent_first_take | done].
Qed.

Lemma select_videos_where featured_is vs v :
  v ∈ select_videos featured_is None vs <-> v ∈ where_featured featured_is vs.
Proof. unfold select_videos. simpl. by rewrite order_by_permutation. Qed.

Lemma select_videos_where_limit featured_is limit vs v :
  v ∈ select_videos featured_is limit vs -> v ∈ where_featured featured_is vs.
Proof.
  destruct limit as [n|]; [|by apply select_videos_where].
  unfold select_videos. simpl. intros (i & Hi & _)%elem_of_take.
  rewrite <- (order_by_permutation (where_featured featured_is vs)).
  by eapply list_elem_of_lookup_2.
Qed.

Lemma select_videos_featured b limit vs :
  Forall (fun v => featured v = b /\ v ∈ vs) (select_videos (Some b) limit vs).
Proof.
  apply Forall_forall. intros v Hv%select_videos_where_limit.
  simpl in Hv. by apply list_elem_of_filter in Hv.
Qed.

(** C9. The featured listings of the home and the highlights pages hold
    rows of the table whose [featured] flag is set, the other listing of
    the highlights page holds rows whose flag is not set — between them
    the two listings of the highlights page hold every row — and each of
    the listings is ordered most recent first. *)
Theorem listings_split_by_featured w :
  (exists featured_videos recent_videos,
      response_to home w =
        render_template (home_html featured_videos recent_videos) /\
      Forall (fun v => featured v = true /\ v ∈ videos w) featured_videos /\
      most_recent_first featured_videos /\ most_recent_first recent_videos) /\
  (exists featured_videos other_videos,
      response_to highlights w =
        render_template (highlights_html featured_videos other_videos) /\
      Forall (fun v => featured v = true /\ v ∈ videos w) featured_videos /\
      Forall (fun v => featured v = false /\ v ∈ videos w) other_videos /\
      featured_videos ≡ₚ filter (fun v => featured v = true) (videos w) /\
      other_videos ≡ₚ filter (fun v => featured v = false) (videos w) /\
      most_recent_first featured_videos /\ most_recent_first other_videos).
Proof.
  split.
  - unfold home. run_M. rewrite !format_videos_eq.
    eexists _, _. split; [done|].
    repeat apply conj;
      first [apply select_videos_featured
            |apply select_videos_most_recent_first].
  - unfold highlights. run_M. rewrite !format_videos_eq.
    eexists _, _. split; [done|].
    repeat apply conj;
      first [apply select_videos_featured
            |apply select_videos_most_recent_first
            |unfold select_videos; simpl; apply order_by_permutation].
Qed.

(** C2 (amended). Every listing of the home, highlights and admin pages
    is ordered by descending [upload_date] and by nothing else: among
    rows of equal [upload_date] the queries fix no order, so the listings
    are the same for every order SQLite may choose only when no two rows
    of the table share their [upload_date]. *)
Theorem listings_ordered_by_upload_date_only
    (other : Sqlite) (other_order_by : @SqliteOrderBy other) w :
  Forall most_recent_first (listings (response_to (@home sqlite) w)) /\
  Forall most_recent_first (listings (response_to (@highlights sqlite) w)) /\
  Forall most_recent_first
    (listings (response_to (@admin_dashboard sqlite) w)) /\
  (NoDup (map upload_date (videos w)) ->
   response_to (@home other) w = response_to (@home sqlite) w /\
   response_to (@highlights other) w = response_to (@highlights sqlite) w /\
   response_to (@admin_dashboard other) w =
     response_to (@admin_dashboard sqlite) w).
Proof.
  split; [|split; [|split]].
  - unfold home. run_M. rewrite !format_videos_eq. cbn [listings].
    repeat (apply Forall_cons_2; [apply select_videos_most_recent_first|]).
    apply Forall_nil_2.
  - unfold highlights. run_M. rewrite !format_videos_eq. cbn [listings].
    repeat (apply Forall_cons_2; [apply select_videos_most_recent_first|]).
    apply Forall_nil_2.
  - unfold admin_dashboard. run_M.
    destruct (truthy (session_admin_logged_in w)); run_M; cbn [listings];
      [|by constructor].
    rewrite !format_videos_eq.
    repeat (apply Forall_cons_2; [apply select_videos_most_recent_first|]).
    apply Forall_nil_2.
  - intros Hdates.
    assert (forall featured_is limit,
      @select_videos other featured_is limit (videos w) =
      @select_videos sqlite featured_is limit (videos w)) as Hsame.
    { intros featured_is limit. unfold select_videos. f_equal.
      apply (StronglySorted_unique_strong not_older).
      - intros x1 x2 Hx1 Hx2 H12 H21.
        rewrite (@order_by_permutation other _) in Hx1.
        rewrite (@order_by_permutation sqlite _) in Hx2.
        apply where_featured_subset in Hx1, Hx2.
        apply (column_unique upload_date (videos w)); [done..|].
        unfold not_older in *. lia.
      - apply (@order_by_sorted other _).
      - apply (@order_by_sorted sqlite _).
      - rewrite (@order_by_permutation other _).
        by rewrite (@order_by_permutation sqlite _). }
    unfold home, highlights, admin_dashboard. run_M.
    destruct (truthy (session_admin_logged_in w)); run_M;
      by rewrite !Hsame.
Qed.

End ListingProperties.

(** ** The reference collaborators keep their contracts *)

Global Instance not_older_transitive : Transitive not_older.
Proof. intros a b c. unfold not_older. lia. Qed.

Global Instance not_older_total : Total not_older.
Proof. intros a b. unfold not_older. lia. Qed.

Lemma sqlite_scan_and_sort_order_by : @SqliteOrderBy sqlite_scan_and_sort.
Proof.
  split; intros vs; simpl.
  - apply merge_sort_Permutation.
  - apply (StronglySorted_merge_sort not_older).
Qed.

Lemma lstrip_suffix chars s : exists k, s = k ++ WerkzeugUtils.lstrip chars s.
Proof.
  induction s as [|c s [k IH]]; simpl; [by exists []|].
  destruct (bool_decide (c ∈ chars)).
  - exists (c :: k). simpl. by rewrite <- IH.
  - by exists [].
Qed.

Lemma lstrip_head chars s c rest :
  WerkzeugUtils.lstrip chars s = c :: rest -> c ∉ chars.
Proof.
  induction s as [|a s IH]; simpl; [done|].
  destruct (bool_decide (a ∈ chars)) eqn:E; [done|].
  intros [= -> _]. by apply bool_decide_eq_false in E.
Qed.

Lemma rstrip_prefix chars s : exists k, s = WerkzeugUtils.rstrip chars s ++ k.
Proof.
  unfold WerkzeugUtils.rstrip.
  destruct (lstrip_suffix chars (reverse s)) as [k Hk].
  exists (reverse k).
  rewrite <- reverse_app, <- Hk. by rewrite reverse_involutive.
Qed.

Lemma strip_Forall (P : ascii -> Prop) chars s :
  Forall P s -> Forall P (WerkzeugUtils.strip chars s).
Proof.
  intros Hs. unfold WerkzeugUtils.strip.
  destruct (lstrip_suffix chars s) as [k1 Hk1].
  destruct (rstrip_prefix chars (WerkzeugUtils.lstrip chars s)) as [k2 Hk2].
  rewrite Hk1, Hk2, !Forall_app in Hs. tauto.
Qed.

Lemma strip_head chars s c rest :
  WerkzeugUtils.strip chars s = c :: rest -> c ∉ chars.
Proof.
  unfold WerkzeugUtils.strip. intros Heq.
  destruct (rstrip_prefix chars (WerkzeugUtils.lstrip chars s)) as [k Hk].
  rewrite Heq in Hk. simpl in Hk. by apply lstrip_head in Hk.
Qed.

Lemma werkzeug_posix_secure : @WerkzeugSecure werkzeug_posix.
Proof.
  split; intros name; simpl; unfold WerkzeugUtils.secure_filename.
  - apply strip_Forall, Forall_forall.
    by intros c [Hc _]%list_elem_of_filter.
  - match goal with |- Str.startswith _ ?s = _ => destruct s as [|c rest] eqn:E end;
      [done|].
    apply strip_head in E. simpl. apply bool_decide_eq_false. intros ->.
    apply E. by left.
Qed.

Lemma sqlite_reverse_scan_and_sort_order_by :
  @SqliteOrderBy sqlite_reverse_scan_and_sort.
Proof.
  split; intros vs; simpl.
  - rewrite merge_sort_Permutation. apply reverse_Permutation.
  - apply (StronglySorted_merge_sort not_older).
Qed.

(** ** The properties at the sample data *)


Lemma upload_path_inside_storage_root_witness :
  @secure_filename werkzeug_posix «"../../etc/passwd.mp4"» =
    «"etc_passwd.mp4"» /\
  resolve (os_path_join UPLOAD_FOLDER
             (@assign_storage_name werkzeug_posix sample_env
                «"../../etc/passwd.mp4"»)) =
  Some [«"static"»; «"uploads"»; «"20240307_090501_etc_passwd.mp4"»].
Proof.
  split; [reflexivity|].
  pose proof (@upload_path_inside_storage_root werkzeug_posix
                werkzeug_posix_secure sample_env «"../../etc/passwd.mp4"»)
    as (_ & _ & _ & _ & Hresolve & _).
  rewrite Hresolve. reflexivity.
Defined.

Lemma unauthenticated_request_redirected_witness :
  truthy (session_admin_logged_in sample_world_anonymous) = false /\
  handle_request (@upload_video werkzeug_posix sample_env
                    sample_upload_untitled) sample_world_anonymous =
    (redirect admin_login, sample_world_anonymous) /\
  handle_request (delete_video sample_env 1) sample_world_anonymous =
    (redirect admin_login, sample_world_anonymous) /\
  handle_request (toggle_featured 1) sample_world_anonymous =
    (redirect admin_login, sample_world_anonymous).
Proof.
  split; [reflexivity|].
  apply (@unauthenticated_request_redirected werkzeug_posix).
  reflexivity.
Defined.

(** C1 (as stated) fails: in an administrator's session an upload of
    [clip.mp4] with the empty string as its title calls the insert and
    leaves a third row, whose title is empty, and the flashed message
    reports success. *)
Lemma upload_with_empty_title_is_stored :
  let handler := @upload_video werkzeug_posix sample_env
                   sample_upload_untitled in
  form_title sample_upload_untitled = Some [] /\
  response_to handler sample_world = redirect admin_dashboard_page /\
  videos (world_after handler sample_world) =
    [video_a; video_b;
     mkVideo 3 [] [] «"20240307_090501_clip.mp4"» 1709802301 false] /\
  calls_during sample_world (world_after handler sample_world) =
    [FileSave «"static/uploads/20240307_090501_clip.mp4"»; DbConnect;
     DbInsert [] [] «"20240307_090501_clip.mp4"» false; DbCommit; DbClose] /\
  flashes (world_after handler sample_world) =
    [(«"Video uploaded successfully!"», «"success"»)].
Proof. repeat apply conj; by vm_compute. Qed.

Lemma upload_with_empty_title_witness :
  form_title sample_upload_untitled = Some [] /\
  exists v,
    videos (world_after (@upload_video werkzeug_posix sample_env
                           sample_upload_untitled) sample_world) =
      videos sample_world ++ [v] /\
    title v = [].
Proof.
  split; [reflexivity|].
  destruct (@upload_with_empty_title werkzeug_posix sample_env
              sample_upload_untitled sample_world eq_refl)
    as [Haccepted _].
  destruct Haccepted as (v & Hv & Ht & _).
  - split; [reflexivity|].
    exists (mkFileStorage «"clip.mp4"» []).
    repeat apply conj; try reflexivity. discriminate.
  - by exists v.
Defined.

(** C2 (as stated) fails: a scan of the table followed by a sort on
    [upload_date] is an order the queries admit, and with it the admin
    listing shows the two rows of equal [upload_date] with the smaller
    [id] first. *)
Lemma listing_ties_in_ascending_id :
  @SqliteOrderBy sqlite_scan_and_sort /\
  response_to (@admin_dashboard sqlite_scan_and_sort) sample_world =
    render_template (admin_dashboard_html [video_a; video_b]) /\
  upload_date video_a = upload_date video_b /\
  id video_a < id video_b /\
  ~ ties_by_descending_id [video_a; video_b].
Proof.
  split; [apply sqlite_scan_and_sort_order_by|].
  split; [by vm_compute|]. split; [reflexivity|]. split; [reflexivity|].
  intros Hties.
  specialize (Hties 0%nat 1%nat video_a video_b
                ltac:(lia) eq_refl eq_refl eq_refl).
  simpl in Hties. lia.
Qed.

Lemma listings_ordered_by_upload_date_only_witness :
  @SqliteOrderBy sqlite_scan_and_sort /\
  @SqliteOrderBy sqlite_reverse_scan_and_sort /\
  NoDup (map upload_date (videos sample_world_distinct)) /\
  Forall most_recent_first
    (listings (response_to (@home sqlite_scan_and_sort) sample_world)) /\
  response_to (@admin_dashboard sqlite_reverse_scan_and_sort)
    sample_world_distinct =
  response_to (@admin_dashboard sqlite_scan_and_sort) sample_world_distinct.
Proof.
  split; [apply sqlite_scan_and_sort_order_by|].
  split; [apply sqlite_reverse_scan_and_sort_order_by|].
  assert (NoDup (map upload_date (videos sample_world_distinct))) as Hdates
    by (by apply (bool_decide_unpack _)).
  split; [exact Hdates|]. split.
  - apply (@listings_ordered_by_upload_date_only
             sqlite_scan_and_sort sqlite_scan_and_sort_order_by
             sqlite_reverse_scan_and_sort
             sqlite_reverse_scan_and_sort_order_by sample_world).
  - apply (@listings_ordered_by_upload_date_only
             sqlite_scan_and_sort sqlite_scan_and_sort_order_by
             sqlite_reverse_scan_and_sort
             sqlite_reverse_scan_and_sort_order_by sample_world_distinct).
    exact Hdates.
Defined.

Lemma listings_split_by_featured_witness :
  @SqliteOrderBy sqlite_scan_and_sort /\
  exists featured_videos other_videos,
    response_to (@highlights sqlite_scan_and_sort) sample_world =
      render_template (highlights_html featured_videos other_videos) /\
    Forall (fun v => featured v = true /\ v ∈ videos sample_world)
           featured_videos /\
    Forall (fun v => featured v = false /\ v ∈ videos sample_world)
           other_videos.
Proof.
  split; [apply sqlite_scan_and_sort_order_by|].
  destruct (@listings_split_by_featured sqlite_scan_and_sort
              sqlite_scan_and_sort_order_by sample_world)
    as [_ (fv & ov & Hresponse & Hfv & Hov & _)].
  by exists fv, ov.
Defined.

(** C6 (as stated) fails: when the storage root refuses to remove the
    file of row 1, the request ends with the error raised by the removal
    and the row is still in the table, no delete having been called; and
    for an id that names no row the handler flashes nothing. *)
Lemma delete_video_blocked_by_failed_removal :
  let handler := delete_video sample_env_remove_fails 1 in
  select_by_id 1 (videos sample_world) = Some video_a /\
  is_Some (storage sample_world !! video_path video_a) /\
  response_to handler sample_world =
    internal_server_error (OSError «"static/uploads/a.mp4"») /\
  select_by_id 1 (videos (world_after handler sample_world)) =
    Some video_a /\
  calls_during sample_world (world_after handler sample_world) =
    [DbConnect; DbSelectById 1; OsPathExists «"static/uploads/a.mp4"»;
     OsRemove «"static/uploads/a.mp4"»] /\
  select_by_id 7 (videos sample_world) = None /\
  response_to (delete_video sample_env 7) sample_world =
    redirect admin_dashboard_page /\
  flashes (world_after (delete_video sample_env 7) sample_world) = [].
Proof.
  repeat apply conj; try by vm_compute.
  vm_compute. by eexists.
Qed.

Lemma delete_video_file_then_record_witness :
  truthy (session_admin_logged_in sample_world) = true /\
  let w' := world_after (delete_video sample_env 1) sample_world in
  response_to (delete_video sample_env 1) sample_world =
    redirect admin_dashboard_page /\
  select_by_id 1 (videos w') = None /\
  storage w' = delete (video_path video_a) (storage sample_world).
Proof.
  split; [reflexivity|].
  pose proof (delete_video_file_then_record sample_env 1 sample_world
                eq_refl) as Hdelete.
  change (select_by_id 1 (videos sample_world)) with (Some video_a)
    in Hdelete.
  destruct Hdelete as (_ & Hremoved & _).
  destruct Hremoved as (Hresponse & _ & Hgone & Hstorage & _).
  - vm_compute. by eexists.
  - reflexivity.
  - by repeat apply conj.
Defined.

Lemma toggle_featured_flips_one_witness :
  truthy (session_admin_logged_in sample_world) = true /\
  NoDup (map id (videos sample_world)) /\
  select_by_id 2 (videos sample_world) = Some video_b /\
  videos (world_after (toggle_featured 2) sample_world) =
    [video_a; set_featured true video_b].
Proof.
  assert (NoDup (map id (videos sample_world))) as Hkey
    by (by apply (bool_decide_unpack _)).
  split; [reflexivity|]. split; [exact Hkey|]. split; [reflexivity|].
  destruct (toggle_featured_flips_one 2 video_b sample_world
              eq_refl Hkey eq_refl) as (_ & _ & Hvideos & _).
  rewrite Hvideos. reflexivity.
Defined.

(** * Further properties *)

(** ** Administrator session *)

Ltac run_session :=
  cbv beta iota delta
      [form_getitem set_session_admin_logged_in serve reply_to world_served
       admin_logout];
  run_M.

Lemma select_admin_user_unique name users u :
  usernames_unique users -> u ∈ users -> username u = name ->
  select_admin_user name users = Some u.
Proof.
  unfold usernames_unique, select_admin_user.
  induction users as [|a users IH]; simpl; [by intros _ ?%elem_of_nil|].
  intros [Ha Hnd]%NoDup_cons [->|Hu]%elem_of_cons Hname.
  - by rewrite bool_decide_true.
  - rewrite bool_decide_false; [by apply IH|].
    intros Heq. apply Ha. rewrite Heq, <- Hname.
    apply list_elem_of_In, in_map, list_elem_of_In, Hu.
Qed.

Lemma select_admin_user_Some name users u :
  select_admin_user name users = Some u -> u ∈ users /\ username u = name.
Proof.
  unfold select_admin_user. induction users as [|a users IH]; simpl; [done|].
  destruct (bool_decide (username a = name)) eqn:E.
  - intros [= ->]. apply bool_decide_eq_true in E. split; [by left|done].
  - intros Hf. destruct (IH Hf). split; [by right|done].
Qed.

Section SessionProperties.
Context `{WerkzeugSecurity}.

(** X1. A login attempt is turned down when no account with the given
    name has a hash the password checks against — an unknown name
    included: the login page is shown again with an error flashed, and
    the session flag, the table and the storage root are as before. *)
Theorem admin_login_rejects users request name password w :
  method request = POST ->
  form_username request = Some name ->
  form_password request = Some password ->
  (forall u, u ∈ users -> username u = name ->
             check_password_hash (password_hash u) password = false) ->
  let w' := world_served (admin_login_view users request) w in
  reply_to (admin_login_view users request) w =
    render_static admin_login_html /\
  session_admin_logged_in w' = session_admin_logged_in w /\
  videos w' = videos w /\ storage w' = storage w /\
  flashes w' = flashes w ++ [(«"Invalid credentials!"», «"error"»)].
Proof.
  intros Hmethod Hname Hpassword Hcheck w'. subst w'.
  unfold admin_login_view. rewrite Hmethod, Hname, Hpassword. run_session.
  assert (credentials_accepted (select_admin_user name users) password
          = false) as ->.
  { destruct (select_admin_user name users) as [u|] eqn:Hu; [|done].
    apply select_admin_user_Some in Hu as [Hin Hu]. simpl. by apply Hcheck. }
  run_session. done.
Qed.

(** X2. A login with the name of an account and a password its hash
    checks against sets the session flag and goes to the dashboard,
    leaving the table and the storage root alone; from then on the
    dashboard is rendered instead of the redirect to the login page. *)
Theorem admin_login_opens_gate `{Sqlite} users request u password w :
  method request = POST ->
  form_username request = Some (username u) ->
  form_password request = Some password ->
  usernames_unique users -> u ∈ users ->
  check_password_hash (password_hash u) password = true ->
  let w' := world_served (admin_login_view users request) w in
  reply_to (admin_login_view users request) w =
    reply (redirect admin_dashboard_page) /\
  session_admin_logged_in w' = Some true /\
  videos w' = videos w /\ storage w' = storage w /\
  flashes w' = flashes w ++ [(«"Successfully logged in!"», «"success"»)] /\
  response_to admin_dashboard w' =
    render_template (admin_dashboard_html (select_videos None None (videos w))).
Proof.
  intros Hmethod Hname Hpassword Hunique Hin Hcheck w'. subst w'.
  unfold admin_login_view. rewrite Hmethod, Hname, Hpassword. run_session.
  rewrite (select_admin_user_unique _ _ u) by done.
  cbn [credentials_accepted]. rewrite Hcheck. run_session.
  repeat apply conj; try done.
  unfold admin_dashboard. run_M. cbn [truthy]. run_M.
  unfold format_videos, video_dict.
  f_equal. f_equal.
  generalize (select_videos None None (videos w)). intros vs.
  assert (forall acc, foldl (fun formatted_videos video =>
            formatted_videos ++ [video]) acc vs = acc ++ vs) as Hgen.
  { induction vs as [|v vs IH]; intros acc; simpl.
    - by rewrite app_nil_r.
    - rewrite IH. by rewrite <- app_assoc. }
  apply Hgen.
Qed.

(** X3. Without a complete login form nothing happens to the world: a
    GET shows the login page whatever the form holds, and a POST that
    lacks the user name or the password is a bad request, answered
    before the accounts are looked at. *)
Theorem admin_login_without_form users request w :
  (method request = GET ->
   serve (admin_login_view users request) w =
     (render_static admin_login_html, w)) /\
  (method request = POST ->
   form_username request = None \/ form_password request = None ->
   serve (admin_login_view users request) w = (reply bad_request, w)).
Proof.
  split; intros Hmethod; unfold admin_login_view; rewrite Hmethod.
  - by run_session.
  - intros [Hnone|Hnone]; rewrite Hnone; run_session; [done|].
    destruct (form_username request); by run_session.
Qed.

End SessionProperties.

(** X4. Logging out clears the session flag, whatever it was, and goes
    to the home page with the table and the storage root untouched;
    every administrator page asked for afterwards — dashboard, upload,
    delete, toggle — answers with the redirect to the login page and
    changes nothing. *)
Theorem admin_logout_closes_gate `{Werkzeug} `{Sqlite}
    env request video_id w :
  let w' := world_served admin_logout w in
  reply_to admin_logout w = reply (redirect home_page) /\
  session_admin_logged_in w' = None /\
  videos w' = videos w /\ storage w' = storage w /\
  handle_request admin_dashboard w' = (redirect admin_login, w') /\
  handle_request (upload_video env request) w' = (redirect admin_login, w') /\
  handle_request (delete_video env video_id) w' = (redirect admin_login, w') /\
  handle_request (toggle_featured video_id) w' = (redirect admin_login, w').
Proof.
  intros w'. subst w'.
  unfold admin_dashboard, upload_video, delete_video, toggle_featured.
  run_session. cbn [truthy]. run_M. done.
Qed.

(** ** Pages *)

(** What [LIMIT] keeps is what no left-out row is more recent than. *)
Lemma take_sorted_most_recent n (rows sorted : list Video) a b :
  sorted ≡ₚ rows -> StronglySorted not_older sorted ->
  a ∈ take n sorted -> b ∈ rows ->
  b ∈ take n sorted \/ upload_date b <= upload_date a.
Proof.
  intros Hperm Hsorted Ha Hb.
  rewrite <- Hperm, <- (take_drop n sorted) in Hb.
  apply elem_of_app in Hb as [Hb|Hb]; [by left|right].
  rewrite <- (take_drop n sorted) in Hsorted.
  by apply (StronglySorted_app_1_elem_of not_older _ _ a b) in Hsorted.
Qed.

Section PageProperties.
Context {sqlite : Sqlite} {sqlite_order_by : SqliteOrderBy}.

Lemma select_videos_length featured_is limit vs :
  length (select_videos featured_is limit vs) =
  match limit with
  | Some n => Nat.min n (length (where_featured featured_is vs))
  | None => length (where_featured featured_is vs)
  end.
Proof.
  unfold select_videos.
  pose proof (Permutation_length
    (order_by_permutation (where_featured featured_is vs))) as Hlen.
  destruct limit as [n|]; simpl; [|done]. by rewrite length_take, Hlen.
Qed.

Lemma select_videos_most_recent featured_is n vs a b :
  a ∈ select_videos featured_is (Some n) vs ->
  b ∈ where_featured featured_is vs ->
  b ∈ select_videos featured_is (Some n) vs \/
  upload_date b <= upload_date a.
Proof.
  unfold select_videos. simpl.
  apply take_sorted_most_recent;
    [apply order_by_permutation | apply order_by_sorted].
Qed.

(** X5. The dashboard is behind the gate: without the session flag it
    answers with the redirect to the login page and queries nothing;
    with it, it lists every row of the table, each once, the most recent
    first, with a single query and no change to the table, the storage
    root, the session or the flashed messages. *)
Theorem admin_dashboard_lists_all w :
  (truthy (session_admin_logged_in w) = false ->
   handle_request admin_dashboard w = (redirect admin_login, w)) /\
  (truthy (session_admin_logged_in w) = true ->
   let w' := world_after admin_dashboard w in
   exists rows,
     response_to admin_dashboard w =
       render_template (admin_dashboard_html rows) /\
     rows ≡ₚ videos w /\ most_recent_first rows /\
     videos w' = videos w /\ sqlite_sequence w' = sqlite_sequence w /\
     storage w' = storage w /\
     session_admin_logged_in w' = session_admin_logged_in w /\
     flashes w' = flashes w /\
     calls_during w w' = [DbConnect; DbSelectList None None; DbClose]).
Proof.
  split; intros Hgate; unfold admin_dashboard; run_M; rewrite Hgate; run_M.
  - done.
  - rewrite format_videos_eq. eexists. split; [done|].
    split; [unfold select_videos; simpl; apply order_by_permutation|].
    split; [apply select_videos_most_recent_first|].
    run_calls. done.
Qed.

(** X6. The home page is public and read-only: in any session it renders
    at most three featured rows and at most six rows overall — all of
    them when there are no more — and a row it leaves out is never more
    recent than a row it shows; the table, the storage root, the session
    and the flashed messages are as before. *)
Theorem home_shows_most_recent w :
  let w' := world_after home w in
  exists featured_videos recent_videos,
    response_to home w =
      render_template (home_html featured_videos recent_videos) /\
    length featured_videos =
      Nat.min 3 (length (filter (fun v => featured v = true) (videos w))) /\
    length recent_videos = Nat.min 6 (length (videos w)) /\
    (forall a b, a ∈ featured_videos -> b ∈ videos w -> featured b = true ->
                 b ∈ featured_videos \/ upload_date b <= upload_date a) /\
    (forall a b, a ∈ recent_videos -> b ∈ videos w ->
                 b ∈ recent_videos \/ upload_date b <= upload_date a) /\
    videos w' = videos w /\ storage w' = storage w /\
    session_admin_logged_in w' = session_admin_logged_in w /\
    flashes w' = flashes w.
Proof.
  intros w'. subst w'. unfold home. run_M. rewrite !format_videos_eq.
  eexists _, _. split; [done|].
  split; [apply (select_videos_length (Some true) (Some 3%nat))|].
  split; [apply (select_videos_length None (Some 6%nat))|].
  split; [|split; [|done]].
  - intros a b Ha Hb Hfeatured.
    apply (select_videos_most_recent (Some true) 3 (videos w) a b Ha).
    simpl. by apply list_elem_of_filter.
  - intros a b Ha Hb.
    by apply (select_videos_most_recent None 6 (videos w) a b Ha).
Qed.

(** X7. The highlights page is public and read-only, and between its two
    listings it shows every row of the table exactly once. *)
Theorem highlights_shows_every_row_once w :
  let w' := world_after highlights w in
  exists featured_videos other_videos,
    response_to highlights w =
      render_template (highlights_html featured_videos other_videos) /\
    featured_videos ++ other_videos ≡ₚ videos w /\
    videos w' = videos w /\ storage w' = storage w /\
    session_admin_logged_in w' = session_admin_logged_in w /\
    flashes w' = flashes w.
Proof.
  intros w'. subst w'. unfold highlights. run_M. rewrite !format_videos_eq.
  eexists _, _. split; [done|]. split; [|done].
  unfold select_videos. simpl. rewrite !order_by_permutation.
  generalize (videos w). intros vs.
  induction vs as [|v vs IH]; [done|].
  rewrite !filter_cons. destruct (featured v) eqn:Hv.
  - rewrite decide_True, decide_False by done. simpl. by rewrite IH.
  - rewrite decide_False, decide_True by done.
    rewrite <- Permutation_middle. by rewrite IH.
Qed.

(** X8. Toggling a row moves it across the highlights page: afterwards
    the row, with its flag negated, is in the featured listing exactly
    when it was not featured before, and in the other listing exactly
    when it was. *)
Theorem toggle_featured_changes_sides video_id video w :
  truthy (session_admin_logged_in w) = true ->
  select_by_id video_id (videos w) = Some video ->
  let w' := world_after (toggle_featured video_id) w in
  let toggled := set_featured (negb (featured video)) video in
  exists featured_videos other_videos,
    response_to highlights w' =
      render_template (highlights_html featured_videos other_videos) /\
    (toggled ∈ featured_videos <-> featured video = false) /\
    (toggled ∈ other_videos <-> featured video = true).
Proof.
  intros Hgate Hsel w' toggled. subst w'.
  unfold toggle_featured. run_M. rewrite Hgate. run_M. rewrite Hsel. run_M.
  unfold highlights. run_M. rewrite !format_videos_eq.
  eexists _, _. split; [done|].
  rewrite !select_videos_where. simpl. rewrite !list_elem_of_filter.
  assert (toggled ∈ map (fun v => if decide (id v = video_id)
              then set_featured (negb (featured video)) v else v) (videos w))
    as Hin.
  { eapply select_by_id_Some.
    by rewrite select_by_id_updated, Hsel. }
  subst toggled. cbn [set_featured featured].
  destruct (featured video); simpl; split; split; try done; by intros [? _].
Qed.

End PageProperties.

(** ** Uploads *)

Lemma max_rowid_ge vs v : v ∈ vs -> id v <= max_rowid vs.
Proof.
  unfold max_rowid. induction vs as [|a vs IH]; simpl.
  - by intros ?%elem_of_nil.
  - intros [->|Hv]%elem_of_cons; [lia|]. apply IH in Hv. lia.
Qed.

Lemma select_by_id_None x vs :
  select_by_id x vs = None <-> forall v, v ∈ vs -> id v <> x.
Proof.
  unfold select_by_id. induction vs as [|a vs IH]; simpl.
  - split; [by intros _ v ?%elem_of_nil | done].
  - destruct (bool_decide (id a = x)) eqn:E.
    + apply bool_decide_eq_true in E. split; [done|].
      intros Hall. exfalso. by apply (Hall a); [left|].
    + apply bool_decide_eq_false in E. rewrite IH. split.
      * intros Hall v [->|Hv]%elem_of_cons; [done | by apply Hall].
      * intros Hall v Hv. apply Hall. by right.
Qed.

Lemma select_by_id_app x vs ws :
  select_by_id x (vs ++ ws) =
  match select_by_id x vs with
  | Some v => Some v
  | None => select_by_id x ws
  end.
Proof.
  unfold select_by_id. induction vs as [|a vs IH]; simpl; [done|].
  by destruct (bool_decide (id a = x)).
Qed.

Lemma filter_other_ids x (vs : list Video) :
  (forall v, v ∈ vs -> id v <> x) -> filter (fun v => id v <> x) vs = vs.
Proof.
  induction vs as [|a vs IH]; intros Hall; [done|].
  rewrite filter_cons, decide_True by (apply Hall; by left).
  rewrite IH; [done|]. intros v Hv. apply Hall. by right.
Qed.

Section UploadProperties.
Context `{Werkzeug}.


(** X10. The title is read as soon as a file part is there, before the
    file name is looked at: an upload with a file part and no [title]
    field is a bad request and changes nothing, whatever the file is
    called. *)
Theorem upload_without_title env request file w :
  truthy (session_admin_logged_in w) = true ->
  files_video request = Some file ->
  form_title request = None ->
  handle_request (upload_video env request) w = (bad_request, w).
Proof.
  intros Hlogged Hfile Htitle.
  unfold upload_video. run_M. rewrite Hlogged. run_M.
  rewrite Hfile, Htitle. by run_M.
Qed.

(** X11. An accepted upload can be read back: the table holds, under a
    key above every key in use and above the high-water mark, a row with
    the title, the description (empty when the form has none), the
    featured flag, the storage name and the database clock of the
    request; the storage root holds the payload under that storage name;
    and every other key and every other path reads as before. *)
Theorem upload_stores_row_and_file env request file title0 w :
  truthy (session_admin_logged_in w) = true ->
  files_video request = Some file ->
  form_title request = Some title0 ->
  file_filename file <> [] ->
  allowed_file (file_filename file) = true ->
  save_fails env = false ->
  let w' := world_after (upload_video env request) w in
  let name := assign_storage_name env (file_filename file) in
  let key := Z.max (sqlite_sequence w) (max_rowid (videos w)) + 1 in
  response_to (upload_video env request) w = redirect admin_dashboard_page /\
  select_by_id key (videos w') =
    Some (mkVideo key title0 (default [] (form_description request)) name
                  (CURRENT_TIMESTAMP env) (form_featured request)) /\
  storage w' !! os_path_join UPLOAD_FOLDER name = Some (file_stream file) /\
  (forall other, other <> key ->
      select_by_id other (videos w') = select_by_id other (videos w)) /\
  (forall path, path <> os_path_join UPLOAD_FOLDER name ->
      storage w' !! path = storage w !! path) /\
  sqlite_sequence w' = key /\
  flashes w' = flashes w ++ [(«"Video uploaded successfully!"», «"success"»)].
Proof.
  intros Hlogged Hfile Htitle Hname Hext Hsave w' name key. subst w'.
  unfold upload_video. run_M. rewrite Hlogged. run_M.
  rewrite Hfile, Htitle. run_M.
  rewrite decide_False, bool_decide_true, Hext by done. run_M.
  rewrite Hsave. run_M. fold name key.
  repeat apply conj; try done.
  - rewrite select_by_id_app.
    assert (select_by_id key (videos w) = None) as ->.
    { apply select_by_id_None. intros v Hv%max_rowid_ge. subst key. lia. }
    unfold select_by_id. simpl. by rewrite bool_decide_true.
  - apply lookup_insert_eq.
  - intros other Hother. rewrite select_by_id_app.
    destruct (select_by_id other (videos w)); [done|].
    unfold select_by_id. simpl. by rewrite bool_decide_false.
  - intros path Hpath. by rewrite lookup_insert_ne.
Qed.

End UploadProperties.

(** ** Keys *)

(** The five ways through [delete_video]: a removal that fails; a file
    removed and a row deleted; a row deleted whose file was missing; no
    such row; a closed gate. *)
Ltac delete_cases env video_id w :=
  unfold delete_video; run_M;
  destruct (truthy (session_admin_logged_in w)) eqn:Hgate; run_M;
  [ destruct (select_by_id video_id (videos w)) as [video|] eqn:Hsel; run_M;
    [ destruct (bool_decide (is_Some
        (storage w !! os_path_join UPLOAD_FOLDER (filename video))))
        eqn:Hexists; run_M;
      [ destruct (remove_fails env) eqn:Hremove; run_M;
        rewrite ?Hexists; run_M | ]
    | ]
  | ].

(** The three ways through [toggle_featured]: a row updated; no such
    row; a closed gate. *)
Ltac toggle_cases video_id w :=
  unfold toggle_featured; run_M;
  destruct (truthy (session_admin_logged_in w)) eqn:Hgate; run_M;
  [ destruct (select_by_id video_id (videos w)) as [video|] eqn:Hsel; run_M
  | ].

Lemma toggled_ids x nf vs :
  map id (map (fun v => if decide (id v = x)
                        then set_featured nf v else v) vs) = map id vs.
Proof.
  induction vs as [|a vs IH]; simpl; [done|]. rewrite IH.
  by destruct (decide (id a = x)).
Qed.

Lemma keys_consistent_delete x vs seq :
  NoDup (map id vs) /\ Forall (fun v => id v <= seq) vs ->
  NoDup (map id (filter (fun v => id v <> x) vs)) /\
  Forall (fun v => id v <= seq) (filter (fun v => id v <> x) vs).
Proof.
  intros [Hnd Hall]. split.
  - clear Hall. induction vs as [|a vs IH]; [done|].
    simpl in Hnd. apply NoDup_cons in Hnd as [Ha Hnd].
    rewrite filter_cons. destruct (decide (id a <> x)); [|by apply IH].
    simpl. apply NoDup_cons. split; [|by apply IH].
    intros Hin. apply Ha.
    apply list_elem_of_In, in_map_iff in Hin as (b & Hb & Hin).
    apply list_elem_of_In, list_elem_of_filter in Hin as [_ Hin].
    rewrite <- Hb. apply list_elem_of_In, in_map, list_elem_of_In, Hin.
  - apply Forall_forall. intros v [_ Hv]%list_elem_of_filter.
    rewrite Forall_forall in Hall. by apply Hall.
Qed.

Lemma keys_consistent_toggle x nf vs seq :
  NoDup (map id vs) /\ Forall (fun v => id v <= seq) vs ->
  let vs' := map (fun v => if decide (id v = x)
                           then set_featured nf v else v) vs in
  NoDup (map id vs') /\ Forall (fun v => id v <= seq) vs'.
Proof.
  intros [Hnd Hall] vs'. subst vs'. split; [by rewrite toggled_ids|].
  induction Hall as [|a vs Ha Hall IH]; simpl; [constructor|].
  apply NoDup_cons in Hnd as [_ Hnd]. constructor; [|by apply IH].
  by destruct (decide (id a = x)).
Qed.

Lemma keys_consistent_insert vs seq v :
  NoDup (map id vs) /\ Forall (fun a => id a <= seq) vs ->
  id v = Z.max seq (max_rowid vs) + 1 ->
  NoDup (map id (vs ++ [v])) /\ Forall (fun a => id a <= id v) (vs ++ [v]).
Proof.
  intros [Hnd Hall] Hkey. split.
  - rewrite map_app. apply NoDup_app. split; [done|].
    split; [|apply NoDup_singleton].
    intros x Hx Hx'. apply list_elem_of_singleton in Hx'. subst x.
    apply list_elem_of_In, in_map_iff in Hx as (a & Ha & Hin).
    apply list_elem_of_In, max_rowid_ge in Hin. lia.
  - apply Forall_app. split; [|by repeat constructor].
    eapply Forall_impl; [exact Hall|]. intros a Ha. simpl in Ha. lia.
Qed.

Section KeyProperties.
Context `{Werkzeug}.

(** X12. The key discipline of the table survives every administrator
    request: if no key is used twice and none exceeds the high-water
    mark before an upload, a delete or a toggle, the same holds after
    it; the mark never goes down; and a row an upload adds has a key
    above the mark. *)
Theorem keys_stay_consistent env request video_id w :
  keys_consistent w ->
  let after_upload := world_after (upload_video env request) w in
  let after_delete := world_after (delete_video env video_id) w in
  let after_toggle := world_after (toggle_featured video_id) w in
  keys_consistent after_upload /\ keys_consistent after_delete /\
  keys_consistent after_toggle /\
  sqlite_sequence w <= sqlite_sequence after_upload /\
  sqlite_sequence after_delete = sqlite_sequence w /\
  sqlite_sequence after_toggle = sqlite_sequence w /\
  (forall v, v ∈ videos after_upload ->
             v ∈ videos w \/ sqlite_sequence w < id v).
Proof.
  intros Hkeys after_upload after_delete after_toggle.
  subst after_upload after_delete after_toggle.
  assert (forall vs seq (st : gmap str (list Byte.byte)) s f t,
             vs = videos w -> seq = sqlite_sequence w ->
             keys_consistent (mkWorld vs seq st s f t)) as Hsame.
  { intros vs seq st s f t -> ->. exact Hkeys. }
  pose proof Hkeys as Hkept. unfold keys_consistent in Hkeys.
  split; [|split; [|split; [|split; [|split; [|split]]]]].
  - upload_cases env request w; try exact Hkept; try by apply Hsame.
    unfold keys_consistent. cbn [videos sqlite_sequence].
    by apply (keys_consistent_insert (videos w) (sqlite_sequence w)
                (mkVideo _ _ _ _ _ _)).
  - delete_cases env video_id w; try exact Hkept; try by apply Hsame.
    all: unfold keys_consistent; cbn [videos sqlite_sequence].
    all: by apply keys_consistent_delete.
  - toggle_cases video_id w; try exact Hkept; try by apply Hsame.
    unfold keys_consistent. cbn [videos sqlite_sequence].
    by apply keys_consistent_toggle.
  - upload_cases env request w; lia.
  - by delete_cases env video_id w.
  - by toggle_cases video_id w.
  - intros v. upload_cases env request w; try by left.
    intros [Hv|Hv]%elem_of_app; [by left|right].
    apply list_elem_of_singleton in Hv as ->. cbn [id]. lia.
Qed.

(** X13. A key is not given out again: once the row of an id has been
    deleted, an upload made next leaves that id without a row. *)
Theorem deleted_key_not_reused env_delete env_upload request video_id w :
  keys_consistent w ->
  truthy (session_admin_logged_in w) = true ->
  is_Some (select_by_id video_id (videos w)) ->
  remove_fails env_delete = false ->
  let w1 := world_after (delete_video env_delete video_id) w in
  let w2 := world_after (upload_video env_upload request) w1 in
  select_by_id video_id (videos w1) = None /\
  select_by_id video_id (videos w2) = None.
Proof.
  intros [Hnd Hall] Hlogged [row Hvideo] Hrm w1 w2.
  assert (videos w1 = filter (fun v => id v <> video_id) (videos w) /\
          sqlite_sequence w1 = sqlite_sequence w /\
          session_admin_logged_in w1 = session_admin_logged_in w)
    as (Hvideos1 & Hseq1 & Hsession1).
  { subst w1. delete_cases env_delete video_id w;
      first [done | congruence]. }
  assert (video_id <= sqlite_sequence w) as Hbound.
  { apply select_by_id_Some in Hvideo as [Hin <-].
    rewrite Forall_forall in Hall. by apply Hall. }
  assert (select_by_id video_id (videos w1) = None) as Hgone
    by (rewrite Hvideos1; apply select_by_id_deleted).
  split; [done|].
  apply select_by_id_None. intros v Hv.
  assert (v ∈ videos w1 \/ sqlite_sequence w1 < id v) as [Hold|Hnew].
  { revert Hv. subst w2. generalize w1. intros w0.
    upload_cases env_upload request w0; try by left.
    intros [Hv|Hv]%elem_of_app; [by left|right].
    apply list_elem_of_singleton in Hv as ->. cbn [id]. lia. }
  - by apply (proj1 (select_by_id_None video_id (videos w1)) Hgone).
  - lia.
Qed.

(** X14. An upload undone by deleting the row it added leaves the table
    as it was before the upload, and no file under the storage name of
    the upload; only the high-water mark remembers the key. *)
Theorem upload_then_delete_restores env env_delete request file title0 w :
  truthy (session_admin_logged_in w) = true ->
  files_video request = Some file ->
  form_title request = Some title0 ->
  file_filename file <> [] ->
  allowed_file (file_filename file) = true ->
  save_fails env = false ->
  remove_fails env_delete = false ->
  let w1 := world_after (upload_video env request) w in
  let w2 := world_after (delete_video env_delete (sqlite_sequence w1)) w1 in
  let path := os_path_join UPLOAD_FOLDER
                (assign_storage_name env (file_filename file)) in
  videos w2 = videos w /\
  storage w2 = delete path (storage w) /\
  sqlite_sequence w2 = Z.max (sqlite_sequence w) (max_rowid (videos w)) + 1.
Proof.
  intros Hlogged Hfile Htitle Hname Hext Hsave Hrm w1 w2 path.
  subst w2 w1.
  unfold upload_video. run_M. rewrite Hlogged. run_M.
  rewrite Hfile, Htitle. run_M.
  rewrite decide_False, bool_decide_true, Hext by done. run_M.
  rewrite Hsave. run_M. fold path.
  set (key := Z.max (sqlite_sequence w) (max_rowid (videos w)) + 1).
  set (row := mkVideo key title0 (default [] (form_description request))
                (assign_storage_name env (file_filename file))
                (CURRENT_TIMESTAMP env) (form_featured request)).
  assert (forall v, v ∈ videos w -> id v <> key) as Hfresh.
  { intros v Hv%max_rowid_ge. subst key. lia. }
  assert (select_by_id key (videos w ++ [row]) = Some row) as Hrow.
  { rewrite select_by_id_app.
    rewrite (proj2 (select_by_id_None key (videos w)) Hfresh).
    unfold select_by_id. simpl. by rewrite bool_decide_true. }
  unfold delete_video. run_M. rewrite Hlogged. run_M. rewrite Hrow. run_M.
  cbn [filename row]. fold path.
  rewrite lookup_insert_eq, bool_decide_true by (by eexists). run_M.
  rewrite Hrm, lookup_insert_eq, bool_decide_true by (by eexists). run_M.
  repeat apply conj; [|apply delete_insert_eq|done].
  rewrite filter_app, filter_other_ids by done.
  rewrite filter_cons, decide_False; [by rewrite app_nil_r|].
  intros Hne. by apply Hne.
Qed.

End KeyProperties.

(** ** Deleting and toggling *)

(** X15. Toggling the same id twice gives back the table as it was, in
    a table without repeated keys; the storage root is not touched at
    all. *)
Theorem toggle_featured_twice video_id w :
  NoDup (map id (videos w)) ->
  let w1 := world_after (toggle_featured video_id) w in
  let w2 := world_after (toggle_featured video_id) w1 in
  videos w2 = videos w /\ storage w2 = storage w /\
  sqlite_sequence w2 = sqlite_sequence w.
Proof.
  intros Hkey w1 w2. subst w2 w1.
  toggle_cases video_id w.
  - (* the row is there: it is found again, with its flag negated *)
    unfold toggle_featured. run_M. rewrite Hgate. run_M.
    rewrite select_by_id_updated, Hsel. cbn [fmap option_fmap option_map].
    run_M. cbn [set_featured featured]. rewrite negb_involutive.
    split; [|done].
    destruct (select_by_id_Some _ _ _ Hsel) as [Hin Hid].
    rewrite map_map. rewrite <- (map_id (videos w)) at 2.
    apply map_ext_in. intros v Hv%list_elem_of_In.
    destruct (decide (id v = video_id)) as [Hv_id|Hv_id].
    + cbn [set_featured id]. rewrite decide_True by done.
      assert (v = video) as ->
        by (apply (column_unique id (videos w)); [done..|congruence]).
      by destruct video.
    + by rewrite decide_False.
  - unfold toggle_featured. run_M. rewrite Hgate. run_M. rewrite Hsel.
    by run_M.
  - unfold toggle_featured. run_M. rewrite Hgate. by run_M.
Qed.

(** X16. Toggling an id that names no row changes nothing and says
    nothing: the handler goes back to the dashboard after its lookup,
    with the table, the storage root and the flashed messages as they
    were and no update called. *)
Theorem toggle_featured_unknown_id video_id w :
  truthy (session_admin_logged_in w) = true ->
  select_by_id video_id (videos w) = None ->
  let w' := world_after (toggle_featured video_id) w in
  response_to (toggle_featured video_id) w = redirect admin_dashboard_page /\
  videos w' = videos w /\ storage w' = storage w /\
  flashes w' = flashes w /\
  calls_during w w' = [DbConnect; DbSelectById video_id; DbClose].
Proof.
  intros Hlogged Hnone w'. subst w'.
  unfold toggle_featured. run_M. rewrite Hlogged. run_M. rewrite Hnone.
  run_M. run_calls. done.
Qed.

(** X17. Deleting a row leaves the rest alone: every other id reads as
    before, every file but the one of the deleted row is as before, and
    if every row had its file and no other row is stored under the path
    of the deleted one, every remaining row still has its file. *)
Theorem delete_video_keeps_the_rest env video_id w :
  let w' := world_after (delete_video env video_id) w in
  (forall other, other <> video_id ->
      select_by_id other (videos w') = select_by_id other (videos w)) /\
  (forall path,
      (forall video, select_by_id video_id (videos w) = Some video ->
                     path <> video_path video) ->
      storage w' !! path = storage w !! path) /\
  (files_present w ->
   (forall video v, select_by_id video_id (videos w) = Some video ->
                    v ∈ videos w -> id v <> video_id ->
                    video_path v <> video_path video) ->
   files_present w').
Proof.
  intros w'. subst w'. unfold files_present.
  delete_cases env video_id w; try fold (video_path video) in *.
  all: split; [intros other Hother|split; [intros path Hpath|intros Hall Hshared]].
  all: try done.
  all: try (by apply select_by_id_delete_other).
  - apply lookup_delete_ne. intros <-. by apply (Hpath video).
  - intros v [Hv Hin]%list_elem_of_filter.
    rewrite lookup_delete_ne; [by apply Hall|].
    intros Heq. by apply (Hshared video v).
  - intros v [Hv Hin]%list_elem_of_filter. by apply Hall.
Qed.

(** X18. Deleting is idempotent once it went through: when the storage
    root does not refuse removals, a second delete of the same id finds
    no row and changes neither the table, nor the storage root, nor the
    flashed messages. *)
Theorem delete_video_twice env video_id w :
  truthy (session_admin_logged_in w) = true ->
  remove_fails env = false ->
  let w1 := world_after (delete_video env video_id) w in
  let w2 := world_after (delete_video env video_id) w1 in
  select_by_id video_id (videos w1) = None /\
  response_to (delete_video env video_id) w1 = redirect admin_dashboard_page /\
  videos w2 = videos w1 /\ storage w2 = storage w1 /\
  flashes w2 = flashes w1.
Proof.
  intros Hlogged Hrm w1 w2.
  assert (select_by_id video_id (videos w1) = None /\
          session_admin_logged_in w1 = session_admin_logged_in w)
    as [Hgone Hsession].
  { subst w1. delete_cases env video_id w; try congruence.
    all: split; [|done]; try done; apply select_by_id_deleted. }
  split; [done|]. subst w2. revert Hgone Hsession. generalize w1.
  intros w0 Hgone Hsession.
  unfold delete_video. run_M. rewrite Hsession, Hlogged. run_M.
  rewrite Hgone. by run_M.
Qed.

(** ** Letter case of file names *)

Lemma lower_char_idempotent c :
  Str.lower_char (Str.lower_char c) = Str.lower_char c.
Proof. by destruct c as [[] [] [] [] [] [] [] []]. Qed.

Lemma lower_char_dot c : Str.lower_char c = "."%char <-> c = "."%char.
Proof. by destruct c as [[] [] [] [] [] [] [] []]. Qed.

Lemma lower_idempotent s : Str.lower (Str.lower s) = Str.lower s.
Proof.
  unfold Str.lower. rewrite map_map. apply map_ext.
  apply lower_char_idempotent.
Qed.

Lemma rsplit_last_lower s :
  Str.rsplit_last "." (Str.lower s) =
  match Str.rsplit_last "." s with
  | Some (h, t) => Some (Str.lower h, Str.lower t)
  | None => None
  end.
Proof.
  induction s as [|c s IH]; [done|].
  cbn [Str.lower map Str.rsplit_last]. fold (Str.lower s). rewrite IH.
  destruct (Str.rsplit_last "." s) as [[h t]|]; [done|].
  destruct (decide (c = "."%char)) as [->|Hc]; [done|].
  rewrite decide_False; [done|]. by rewrite lower_char_dot.
Qed.

Lemma allowed_file_lower s : allowed_file (Str.lower s) = allowed_file s.
Proof.
  unfold allowed_file, Str.contains. cbn [Str.rsplit].
  rewrite rsplit_last_lower.
  destruct (Str.rsplit_last "." s) as [[h t]|] eqn:E.
  - apply rsplit_last_Some in E as [-> _].
    cbn [app lookup list_lookup]. rewrite lower_idempotent.
    rewrite (bool_decide_true ("."%char ∈ h ++ "."%char :: t))
      by (rewrite elem_of_app, elem_of_cons; auto).
    rewrite bool_decide_true; [done|].
    unfold Str.lower. rewrite map_app, elem_of_app. right.
    cbn [map]. change (Str.lower_char ".") with "."%char. by left.
  - apply rsplit_last_None in E.
    rewrite (bool_decide_false _ E), bool_decide_false; [done|].
    intros Hin. apply E.
    apply list_elem_of_In, in_map_iff in Hin as (c & Hc & Hin).
    apply lower_char_dot in Hc as ->. by apply list_elem_of_In.
Qed.

(** X19. [allowed_file] does not look at letter case anywhere in the
    name: two names that differ only in the case of their letters are
    both accepted or both rejected. *)
Theorem allowed_file_ignores_case (a b : str) :
  Str.lower a = Str.lower b -> allowed_file a = allowed_file b.
Proof.
  intros Hlower.
  by rewrite <- (allowed_file_lower a), Hlower, allowed_file_lower.
Qed.

(** ** Database initialisation *)

Lemma select_admin_user_app name users more :
  select_admin_user name (users ++ more) =
  match select_admin_user name users with
  | Some u => Some u
  | None => select_admin_user name more
  end.
Proof.
  unfold select_admin_user. induction users as [|a users IH]; simpl; [done|].
  by destruct (bool_decide (username a = name)).
Qed.

Lemma select_admin_user_None name users :
  select_admin_user name users = None -> name ∉ map username users.
Proof.
  unfold select_admin_user. induction users as [|a users IH]; simpl.
  - intros _. apply not_elem_of_nil.
  - destruct (bool_decide (username a = name)) eqn:E; [done|].
    apply bool_decide_eq_false in E. intros Hf.
    apply not_elem_of_cons. split; [congruence | by apply IH].
Qed.

Section InitDbProperties.
Context `{WerkzeugSecurity}.


(** X21. [init_db] creates what is missing and overwrites nothing: the
    rows of [videos] and the accounts already there are kept as they
    are — the hash of an existing [admin] account included — the only
    row it can add is an [admin] account when there is none, user names
    stay unique, and afterwards both tables exist and there is an
    [admin] account. *)
Theorem init_db_keeps_data salt db :
  let videos_before := default [] (videos_table db) in
  let users_before := default [] (admin_users_table db) in
  let db' := init_db salt db in
  videos_table db' = Some videos_before /\
  (exists added,
      admin_users_table db' = Some (users_before ++ added) /\
      match select_admin_user «"admin"» users_before with
      | Some _ => added = []
      | None =>
          exists key, added =
            [mkAdminUser key «"admin"»
                         (generate_password_hash salt «"admin123"»)]
      end) /\
  (usernames_unique users_before ->
   usernames_unique (default [] (admin_users_table db'))) /\
  is_Some (select_admin_user «"admin"»
             (default [] (admin_users_table db'))).
Proof.
  intros videos_before users_before db'.
  subst videos_before users_before db'.
  assert (forall (users : list AdminUser) row,
             username row = «"admin"» ->
             select_admin_user «"admin"» users = None ->
             select_admin_user «"admin"» (users ++ [row]) = Some row)
    as Hadded.
  { intros users row Hrow Hnone. rewrite select_admin_user_app, Hnone.
    unfold select_admin_user. cbn [find]. by rewrite bool_decide_true. }
  assert (exists users, default [] (admin_users_table db) = users /\
            create_table_if_not_exists (admin_users_table db) = Some users)
    as (users & Husers & Hcreated)
    by (destruct (admin_users_table db); by eexists).
  assert (create_table_if_not_exists (videos_table db) =
          Some (default [] (videos_table db))) as Hvideos
    by (by destruct (videos_table db)).
  unfold init_db, insert_or_ignore_admin_user.
  cbn [videos_table admin_users_table admin_users_sequence].
  rewrite Hcreated, Husers, Hvideos.
  change (default [] (Some users)) with users.
  destruct (select_admin_user «"admin"» users) as [u|] eqn:E;
    cbn [videos_table admin_users_table admin_users_sequence];
    change (default [] (Some ?l)) with l.
  - split; [done|]. split; [exists []; by rewrite app_nil_r|].
    split; [done|]. rewrite E. by eexists.
  - split; [done|]. split; [eexists; split; [done|by eexists]|].
    split.
    + unfold usernames_unique. intros Hunique.
      rewrite map_app. apply NoDup_app. split; [done|].
      split; [|apply NoDup_singleton].
      intros x Hx Hx'%list_elem_of_singleton. subst x.
      by apply select_admin_user_None in E.
    + rewrite Hadded by done. by eexists.
Qed.

(** X22. The seeded account opens the gate: after [init_db] on a
    database that had no [admin] account, a login as [admin] with the
    password [admin123] is accepted. *)
Theorem default_admin_can_log_in `{!WerkzeugSecurityOk} salt db users w :
  select_admin_user «"admin"» (default [] (admin_users_table db)) = None ->
  admin_users_table (init_db salt db) = Some users ->
  let request := sample_login «"admin"» «"admin123"» in
  reply_to (admin_login_view users request) w =
    reply (redirect admin_dashboard_page) /\
  session_admin_logged_in (world_served (admin_login_view users request) w) =
    Some true.
Proof.
  intros Hfresh Husers request. subst request.
  revert Husers. unfold init_db, insert_or_ignore_admin_user.
  cbn [videos_table admin_users_table admin_users_sequence].
  assert (exists before, default [] (admin_users_table db) = before /\
            create_table_if_not_exists (admin_users_table db) = Some before)
    as (before & Hbefore & Hcreated)
    by (destruct (admin_users_table db); by eexists).
  rewrite Hcreated. change (default [] (Some before)) with before.
  rewrite Hbefore in Hfresh. rewrite Hfresh.
  cbn [admin_users_table]. intros [= <-].
  unfold admin_login_view, sample_login.
  cbn [method form_username form_password]. run_session.
  rewrite select_admin_user_app, Hfresh.
  unfold select_admin_user. cbn [find username].
  rewrite bool_decide_true by done.
  cbn [credentials_accepted password_hash]. rewrite check_generated.
  by run_session.
Qed.

End InitDbProperties.

(** ** The further properties at the sample data *)

Lemma salted_plain_ok : @WerkzeugSecurityOk salted_plain.
Proof.
  split. intros salt password. simpl.
  apply bool_decide_eq_true. by exists salt.
Qed.

Lemma admin_login_rejects_witness :
  (forall u, u ∈ sample_users -> username u = «"admin"» ->
     @check_password_hash salted_plain (password_hash u) «"letmein"» = false) /\
  session_admin_logged_in
    (world_served (@admin_login_view salted_plain sample_users
                     (sample_login «"admin"» «"letmein"»))
                  sample_world_anonymous) = None.
Proof.
  assert (forall u, u ∈ sample_users -> username u = «"admin"» ->
     @check_password_hash salted_plain (password_hash u) «"letmein"» = false)
    as Hcheck.
  { intros u Hu _. apply list_elem_of_singleton in Hu. subst u.
    by vm_compute. }
  split; [exact Hcheck|].
  pose proof (@admin_login_rejects salted_plain sample_users
                (sample_login «"admin"» «"letmein"») «"admin"» «"letmein"»
                sample_world_anonymous eq_refl eq_refl eq_refl Hcheck)
    as (_ & Hsession & _).
  exact Hsession.
Defined.

Lemma admin_login_opens_gate_witness :
  usernames_unique sample_users /\
  @check_password_hash salted_plain «"salt$admin123"» «"admin123"» = true /\
  session_admin_logged_in
    (world_served (@admin_login_view salted_plain sample_users
                     (sample_login «"admin"» «"admin123"»))
                  sample_world_anonymous) = Some true.
Proof.
  assert (usernames_unique sample_users) as Hunique
    by (by apply (bool_decide_unpack _)).
  assert (mkAdminUser 1 «"admin"» «"salt$admin123"» ∈ sample_users) as Hin
    by (by left).
  split; [exact Hunique|]. split; [by vm_compute|].
  pose proof (@admin_login_opens_gate salted_plain sqlite_scan_and_sort
                sample_users (sample_login «"admin"» «"admin123"»)
                (mkAdminUser 1 «"admin"» «"salt$admin123"») «"admin123"»
                sample_world_anonymous eq_refl eq_refl eq_refl Hunique Hin
                ltac:(by vm_compute))
    as (_ & Hsession & _).
  exact Hsession.
Defined.

Lemma admin_dashboard_lists_all_witness :
  @SqliteOrderBy sqlite_scan_and_sort /\
  handle_request (@admin_dashboard sqlite_scan_and_sort)
    sample_world_anonymous = (redirect admin_login, sample_world_anonymous).
Proof.
  split; [apply sqlite_scan_and_sort_order_by|].
  apply (@admin_dashboard_lists_all sqlite_scan_and_sort
           sqlite_scan_and_sort_order_by sample_world_anonymous).
  reflexivity.
Defined.

Lemma home_shows_most_recent_witness :
  @SqliteOrderBy sqlite_scan_and_sort /\
  exists featured_videos recent_videos,
    response_to (@home sqlite_scan_and_sort) sample_world =
      render_template (home_html featured_videos recent_videos) /\
    length featured_videos = 1%nat /\ length recent_videos = 2%nat.
Proof.
  split; [apply sqlite_scan_and_sort_order_by|].
  destruct (@home_shows_most_recent sqlite_scan_and_sort
              sqlite_scan_and_sort_order_by sample_world)
    as (fv & rv & Hresponse & Hfv & Hrv & _).
  exists fv, rv. split; [exact Hresponse|]. split.
  - rewrite Hfv. reflexivity.
  - rewrite Hrv. reflexivity.
Defined.

Lemma highlights_shows_every_row_once_witness :
  @SqliteOrderBy sqlite_scan_and_sort /\
  exists featured_videos other_videos,
    response_to (@highlights sqlite_scan_and_sort) sample_world =
      render_template (highlights_html featured_videos other_videos) /\
    featured_videos ++ other_videos ≡ₚ [video_a; video_b].
Proof.
  split; [apply sqlite_scan_and_sort_order_by|].
  destruct (@highlights_shows_every_row_once sqlite_scan_and_sort
              sqlite_scan_and_sort_order_by sample_world)
    as (fv & ov & Hresponse & Hperm & _).
  exists fv, ov. split; [exact Hresponse | exact Hperm].
Defined.

Lemma toggle_featured_changes_sides_witness :
  @SqliteOrderBy sqlite_scan_and_sort /\
  truthy (session_admin_logged_in sample_world) = true /\
  select_by_id 2 (videos sample_world) = Some video_b /\
  exists featured_videos other_videos,
    response_to (@highlights sqlite_scan_and_sort)
      (world_after (toggle_featured 2) sample_world) =
      render_template (highlights_html featured_videos other_videos) /\
    set_featured true video_b ∈ featured_videos.
Proof.
  split; [apply sqlite_scan_and_sort_order_by|].
  split; [reflexivity|]. split; [reflexivity|].
  destruct (@toggle_featured_changes_sides sqlite_scan_and_sort
              sqlite_scan_and_sort_order_by 2 video_b sample_world
              eq_refl eq_refl)
    as (fv & ov & Hresponse & Hfeatured & _).
  exists fv, ov. split; [exact Hresponse|]. by apply Hfeatured.
Defined.


Lemma upload_without_title_witness :
  truthy (session_admin_logged_in sample_world) = true /\
  form_title sample_upload_no_title = None /\
  handle_request (@upload_video werkzeug_posix sample_env
                    sample_upload_no_title) sample_world =
    (bad_request, sample_world).
Proof.
  split; [reflexivity|]. split; [reflexivity|].
  by apply (@upload_without_title werkzeug_posix sample_env
              sample_upload_no_title (mkFileStorage «"clip.exe"» [])).
Defined.

Lemma upload_stores_row_and_file_witness :
  truthy (session_admin_logged_in sample_world) = true /\
  allowed_file «"clip.mp4"» = true /\
  select_by_id 3
    (videos (world_after (@upload_video werkzeug_posix sample_env
                            sample_upload_clip) sample_world)) =
    Some (mkVideo 3 «"Clip"» [] «"20240307_090501_clip.mp4"»
                  1709802301 true).
Proof.
  split; [reflexivity|]. split; [by vm_compute|].
  pose proof (@upload_stores_row_and_file werkzeug_posix sample_env
                sample_upload_clip (mkFileStorage «"clip.mp4"» []) «"Clip"»
                sample_world eq_refl eq_refl eq_refl ltac:(discriminate)
                ltac:(by vm_compute) eq_refl)
    as (_ & Hrow & _).
  exact Hrow.
Defined.

Lemma keys_stay_consistent_witness :
  keys_consistent sample_world /\
  keys_consistent (world_after (@upload_video werkzeug_posix sample_env
                                  sample_upload_clip) sample_world).
Proof.
  assert (keys_consistent sample_world) as Hkeys.
  { split; [by apply (bool_decide_unpack _)|].
    by apply (bool_decide_unpack _). }
  split; [exact Hkeys|].
  by apply (@keys_stay_consistent werkzeug_posix sample_env
              sample_upload_clip 1 sample_world Hkeys).
Defined.

Lemma deleted_key_not_reused_witness :
  keys_consistent sample_world /\
  is_Some (select_by_id 2 (videos sample_world)) /\
  select_by_id 2
    (videos (world_after (@upload_video werkzeug_posix sample_env_later
                            sample_upload_clip)
               (world_after (delete_video sample_env 2) sample_world))) =
    None.
Proof.
  assert (keys_consistent sample_world) as Hkeys.
  { split; [by apply (bool_decide_unpack _)|].
    by apply (bool_decide_unpack _). }
  assert (is_Some (select_by_id 2 (videos sample_world))) as Hrow
    by (by eexists).
  split; [exact Hkeys|]. split; [exact Hrow|].
  by apply (@deleted_key_not_reused werkzeug_posix sample_env
              sample_env_later sample_upload_clip 2 sample_world
              Hkeys eq_refl Hrow eq_refl).
Defined.

Lemma upload_then_delete_restores_witness :
  truthy (session_admin_logged_in sample_world) = true /\
  videos (world_after
            (delete_video sample_env_later
               (sqlite_sequence
                  (world_after (@upload_video werkzeug_posix sample_env
                                  sample_upload_clip) sample_world)))
            (world_after (@upload_video werkzeug_posix sample_env
                            sample_upload_clip) sample_world)) =
    videos sample_world.
Proof.
  split; [reflexivity|].
  by apply (@upload_then_delete_restores werkzeug_posix sample_env
              sample_env_later sample_upload_clip
              (mkFileStorage «"clip.mp4"» []) «"Clip"» sample_world
              eq_refl eq_refl eq_refl ltac:(discriminate)
              ltac:(by vm_compute) eq_refl eq_refl).
Defined.

Lemma toggle_featured_twice_witness :
  NoDup (map id (videos sample_world)) /\
  videos (world_after (toggle_featured 1)
            (world_after (toggle_featured 1) sample_world)) =
    videos sample_world.
Proof.
  assert (NoDup (map id (videos sample_world))) as Hkey
    by (by apply (bool_decide_unpack _)).
  split; [exact Hkey|].
  by apply (toggle_featured_twice 1 sample_world Hkey).
Defined.

Lemma toggle_featured_unknown_id_witness :
  truthy (session_admin_logged_in sample_world) = true /\
  select_by_id 7 (videos sample_world) = None /\
  flashes (world_after (toggle_featured 7) sample_world) =
    flashes sample_world.
Proof.
  split; [reflexivity|]. split; [reflexivity|].
  by apply (toggle_featured_unknown_id 7 sample_world eq_refl eq_refl).
Defined.

Lemma delete_video_twice_witness :
  truthy (session_admin_logged_in sample_world) = true /\
  remove_fails sample_env = false /\
  videos (world_after (delete_video sample_env 1)
            (world_after (delete_video sample_env 1) sample_world)) =
    videos (world_after (delete_video sample_env 1) sample_world).
Proof.
  split; [reflexivity|]. split; [reflexivity|].
  by apply (delete_video_twice sample_env 1 sample_world eq_refl eq_refl).
Defined.

Lemma allowed_file_ignores_case_witness :
  Str.lower «"Holiday.MP4"» = Str.lower «"HOLIDAY.mp4"» /\
  allowed_file «"Holiday.MP4"» = allowed_file «"HOLIDAY.mp4"».
Proof.
  split; [by vm_compute|].
  apply allowed_file_ignores_case. by vm_compute.
Defined.

Lemma default_admin_can_log_in_witness :
  @WerkzeugSecurityOk salted_plain /\
  select_admin_user «"admin"»
    (default [] (admin_users_table empty_database)) = None /\
  admin_users_table (@init_db salted_plain «"salt"» empty_database) =
    Some sample_users /\
  session_admin_logged_in
    (world_served (@admin_login_view salted_plain sample_users
                     (sample_login «"admin"» «"admin123"»))
                  sample_world_anonymous) = Some true.
Proof.
  split; [apply salted_plain_ok|]. split; [reflexivity|].
  split; [by vm_compute|].
  by apply (@default_admin_can_log_in salted_plain salted_plain_ok
              «"salt"» empty_database sample_users sample_world_anonymous
              eq_refl ltac:(by vm_compute)).
Defined.
